(** * Campaign competition bot: time codec, scoring table, leaderboards

    A shallow embedding of [main.py] (time parsing and formatting, the
    points table, the per-map leaderboard, the overall standings and the
    [time] command over the two store tables) together with the properties
    stated about it.

    Conventions of the embedding.
    - A Python [int] is a [Z]; [//] and [%] with a positive divisor are
      [Z.div] and [Z.modulo] (both floor).
    - A Python [str] is a [list ascii], one element per code point; the
      model covers the code points below 256.  In that range the decimal
      digits ([\d], [int]) are exactly '0'..'9'.
    - A raised exception is a [Raise] value of the [result] type.
    - The two Supabase tables are lists of rows, in the order a [select]
      returns them. *)

From Stdlib Require Import ZArith Ascii String List Bool Lia Permutation Sorted.
Import ListNotations.

Local Open Scope Z_scope.

(** ** Exceptions *)

Inductive exn : Type :=
| IndexError
| TypeError
| ValueError.

Inductive result (A : Type) : Type :=
| Ok (a : A)
| Raise (e : exn).

Arguments Ok {A} a.
Arguments Raise {A} e.

Definition bind {A B : Type} (m : result A) (k : A -> result B) : result B :=
  match m with
  | Ok a => k a
  | Raise e => Raise e
  end.

Notation "x <- m ;; k" := (bind m (fun x => k))
  (at level 61, m at next level, right associativity).

(** [for x in xs: acc = body(acc, x)], stopping at the first exception. *)
Fixpoint for_each {A S : Type} (body : S -> A -> result S) (xs : list A) (acc : S)
  : result S :=
  match xs with
  | [] => Ok acc
  | x :: xs' => acc' <- body acc x ;; for_each body xs' acc'
  end.

(** [for x in xs: out.append(f(x))], stopping at the first exception. *)
Fixpoint collect {A B : Type} (f : A -> result B) (xs : list A) : result (list B) :=
  match xs with
  | [] => Ok []
  | x :: xs' => y <- f x ;; ys <- collect f xs' ;; Ok (y :: ys)
  end.

(** ** Python strings *)

Definition pystr : Type := list ascii.

(** A literal. *)
Definition lit (s : string) : pystr := list_ascii_of_string s.

Definition code (c : ascii) : Z := Z.of_N (N_of_ascii c).

Definition str_eqb (a b : pystr) : bool :=
  if list_eq_dec ascii_dec a b then true else false.

(** [\d] and the digits [int] reads, for code points below 256. *)
Definition is_digit (c : ascii) : bool := (48 <=? code c) && (code c <=? 57).

(** [str.isspace] for code points below 256: TAB LF VT FF CR, the four
    separators FS GS RS US, space, NEL and NBSP. *)
Definition is_space (c : ascii) : bool :=
  ((9 <=? code c) && (code c <=? 13))
  || ((28 <=? code c) && (code c <=? 32))
  || (code c =? 133) || (code c =? 160).

Definition digit_val (c : ascii) : Z := code c - 48.

Definition digit_char (d : Z) : ascii := ascii_of_N (Z.to_N (48 + d)).

(** [int(s)] on a string of decimal digits (every call site in [parse_time]
    passes text matched by [\d+] or [\d{1,3}], on which [int] cannot raise). *)
Definition int_digits (s : pystr) : Z :=
  fold_left (fun acc c => 10 * acc + digit_val c) s 0.

(** Decimal digits of a non-negative integer, most significant first.  The
    fuel bounds the number of digits. *)
Fixpoint digits_fuel (fuel : nat) (n : Z) : pystr :=
  match fuel with
  | O => []
  | S f =>
      if n <? 10 then [digit_char n]
      else digits_fuel f (n / 10) ++ [digit_char (n mod 10)]
  end.

Definition str_nat (n : Z) : pystr := digits_fuel (S (Z.to_nat (Z.log2 n))) n.

(** [str(n)] for an [int]. *)
Definition py_str (n : Z) : pystr :=
  if n <? 0 then "-"%char :: str_nat (- n) else str_nat n.

(** [int(s)] for a string: an optional sign followed by decimal digits.
    Python also accepts surrounding whitespace and single underscores between
    digits; no string the bot stores has them, and the statements below that
    go through [py_int] are restricted to stored identifiers. *)
Definition int_of_unsigned (d : pystr) (sign : Z) : result Z :=
  match d with
  | [] => Raise ValueError
  | _ :: _ => if forallb is_digit d then Ok (sign * int_digits d) else Raise ValueError
  end.

Definition py_int (s : pystr) : result Z :=
  match s with
  | [] => Raise ValueError
  | c :: d =>
      if Ascii.eqb c "-"%char then int_of_unsigned d (-1)
      else if Ascii.eqb c "+"%char then int_of_unsigned d 1
      else int_of_unsigned s 1
  end.

(** [s.strip()]. *)
Fixpoint lstrip (s : pystr) : pystr :=
  match s with
  | c :: r => if is_space c then lstrip r else s
  | [] => []
  end.

Definition rstrip (s : pystr) : pystr := rev (lstrip (rev s)).

Definition strip (s : pystr) : pystr := rstrip (lstrip s).

(** [s.replace(',', '.')]. *)
Definition replace_comma (s : pystr) : pystr :=
  map (fun c => if Ascii.eqb c ","%char then "."%char else c) s.

(** [s.ljust(width, '0')]. *)
Definition ljust0 (width : nat) (s : pystr) : pystr :=
  s ++ repeat "0"%char (width - length s).

(** [format(n, '0<width>d')], as in [f"{n:02d}"]: zero padding goes after
    the sign. *)
Definition zero_pad (width : nat) (s : pystr) : pystr :=
  repeat "0"%char (width - length s) ++ s.

Definition format_0d (width : nat) (n : Z) : pystr :=
  if n <? 0 then "-"%char :: zero_pad (width - 1) (str_nat (- n))
  else zero_pad width (str_nat n).

(** [l[i]] on a Python list: negative indices count from the end. *)
Definition py_getitem {A : Type} (l : list A) (i : Z) : result A :=
  let n := Z.of_nat (length l) in
  let j := if i <? 0 then i + n else i in
  if (0 <=? j) && (j <? n) then
    match nth_error l (Z.to_nat j) with
    | Some x => Ok x
    | None => Raise IndexError
    end
  else Raise IndexError.

(** ** Scoring table *)

Definition point_values : list Z := [25; 18; 15; 12; 10; 8; 6; 4; 2; 1].

Definition get_points_for_position (position : Z) : result Z :=
  if position =? 0 then Ok 0
  else if position <=? Z.of_nat (length point_values)
       then py_getitem point_values (position - 1)
       else Ok 1.

(** ** Time codec *)

(** Longest prefix of [s] whose characters satisfy [p], and what follows it.
    A greedy [\d+] or [\d{m,n}] that is followed in the pattern by a
    non-digit (or by [$]) can only match the whole run of digits: giving one
    back leaves a digit where the pattern wants something else. *)
Fixpoint span (p : ascii -> bool) (s : pystr) : pystr * pystr :=
  match s with
  | c :: r => if p c then let (a, b) := span p r in (c :: a, b) else ([], s)
  | [] => ([], [])
  end.

(** [$] without [re.MULTILINE]: the end of the string, or just before a
    newline that ends the string. *)
Definition at_dollar (s : pystr) : bool :=
  match s with
  | [] => true
  | [c] => code c =? 10
  | _ => false
  end.

Definition count_in (lo hi : nat) (s : pystr) : bool :=
  ((lo <=? length s) && (length s <=? hi))%nat.

(** [re.match(r'^(\d+):(\d{1,2})[:.](\d{1,3})$', s)]: the three groups. *)
Definition match_min_sec_ms (s : pystr) : option (pystr * pystr * pystr) :=
  let (minutes, r1) := span is_digit s in
  match minutes, r1 with
  | _ :: _, c1 :: r2 =>
      if Ascii.eqb c1 ":"%char then
        let (seconds, r3) := span is_digit r2 in
        match r3 with
        | c2 :: r4 =>
            if count_in 1 2 seconds
               && (Ascii.eqb c2 ":"%char || Ascii.eqb c2 "."%char) then
              let (ms, r5) := span is_digit r4 in
              if count_in 1 3 ms && at_dollar r5
              then Some (minutes, seconds, ms) else None
            else None
        | [] => None
        end
      else None
  | _, _ => None
  end.

(** [re.match(r'^(\d+)\.(\d{1,3})$', s)]: the two groups. *)
Definition match_sec_ms (s : pystr) : option (pystr * pystr) :=
  let (seconds, r1) := span is_digit s in
  match seconds, r1 with
  | _ :: _, c1 :: r2 =>
      if Ascii.eqb c1 "."%char then
        let (ms, r3) := span is_digit r2 in
        if count_in 1 3 ms && at_dollar r3 then Some (seconds, ms) else None
      else None
  | _, _ => None
  end.

(** [re.match(r'^(\d+)$', s)]: the group. *)
Definition match_raw_ms (s : pystr) : option pystr :=
  let (ms, r1) := span is_digit s in
  match ms with
  | _ :: _ => if at_dollar r1 then Some ms else None
  | [] => None
  end.

(** In the last branch the source calls [int] on the whole string, which is
    the matched group followed by at most the newline [$] tolerates; [int]
    ignores that newline. *)
Definition parse_time (time_str : pystr) : option Z :=
  let time_str := replace_comma (strip time_str) in
  match match_min_sec_ms time_str with
  | Some (minutes, seconds, ms) =>
      let ms := firstn 3 (ljust0 3 ms) in
      Some (int_digits minutes * 60000 + int_digits seconds * 1000 + int_digits ms)
  | None =>
      match match_sec_ms time_str with
      | Some (seconds, ms) =>
          let ms := firstn 3 (ljust0 3 ms) in
          Some (int_digits seconds * 1000 + int_digits ms)
      | None =>
          match match_raw_ms time_str with
          | Some digits => Some (int_digits digits)
          | None => None
          end
      end
  end.

Definition format_time (ms : Z) : pystr :=
  if ms <=? 0 then lit "00:00.000"
  else
    let minutes := ms / 60000 in
    let seconds := (ms mod 60000) / 1000 in
    let milliseconds := ms mod 1000 in
    format_0d 2 minutes ++ lit ":" ++ format_0d 2 seconds
      ++ lit "." ++ format_0d 3 milliseconds.

(** ** [sorted(xs, key=...)] *)

Section PySorted.
Context {A K : Type}.
Variable ltb : K -> K -> bool.
Variable key : A -> K.

(** [x] goes in front of the first element whose key is not smaller, so
    elements with equal keys keep the order they had: [sorted] is stable. *)
Fixpoint insert_sorted (x : A) (l : list A) : list A :=
  match l with
  | [] => [x]
  | y :: l' => if ltb (key y) (key x) then y :: insert_sorted x l' else x :: l
  end.

Definition py_sorted (l : list A) : list A := fold_right insert_sorted [] l.
End PySorted.

(** [<] on the tuples used as sort keys. *)
Definition tuple_ltb (a b : Z * Z) : bool :=
  (fst a <? fst b) || ((fst a =? fst b) && (snd a <? snd b)).

(** ** Store *)

Record player_row : Type := mk_player
  { p_discord_id : pystr; p_tm_username : pystr }.

Record time_row : Type := mk_time
  { t_discord_id : pystr; t_map_number : Z; t_time_ms : Z }.

Record store : Type := mk_store
  { players : list player_row; times : list time_row }.

Definition empty_store : store := {| players := []; times := [] |}.

(** Modelled from the spec: the tables live in Supabase and their schema is
    not part of the repository.  A Player is keyed by its identity and the
    last write wins. *)
Fixpoint upsert_player_row (row : player_row) (tbl : list player_row)
  : list player_row :=
  match tbl with
  | [] => [row]
  | r :: tbl' =>
      if str_eqb (p_discord_id r) (p_discord_id row) then row :: tbl'
      else r :: upsert_player_row row tbl'
  end.

Definition same_time_key (a b : time_row) : bool :=
  str_eqb (t_discord_id a) (t_discord_id b) && (t_map_number a =? t_map_number b).

(** Modelled from the spec: a TimeEntry is keyed by (identity, map number)
    and a new submission overwrites the prior value; the store performs no
    validation. *)
Fixpoint upsert_time_row (row : time_row) (tbl : list time_row) : list time_row :=
  match tbl with
  | [] => [row]
  | r :: tbl' =>
      if same_time_key r row then row :: tbl'
      else r :: upsert_time_row row tbl'
  end.

Definition upsert_player (st : store) (row : player_row) : store :=
  {| players := upsert_player_row row (players st); times := times st |}.

Definition upsert_time (st : store) (row : time_row) : store :=
  {| players := players st; times := upsert_time_row row (times st) |}.

(** [table('players').select(...).eq('discord_id', discord_id)] *)
Definition select_player (st : store) (discord_id : pystr) : list player_row :=
  filter (fun p => str_eqb (p_discord_id p) discord_id) (players st).

(** [table('times').select('*').eq('discord_id', discord_id)] *)
Definition select_times_of_player (st : store) (discord_id : pystr) : list time_row :=
  filter (fun t => str_eqb (t_discord_id t) discord_id) (times st).

(** A [times] row with its embedded [players(tm_username)] resource, which
    is null when no player row has that [discord_id]. *)
Record time_row_joined : Type := mk_joined
  { j_discord_id : pystr; j_time_ms : Z; j_players : option pystr }.

Definition embed_player (st : store) (t : time_row) : time_row_joined :=
  {| j_discord_id := t_discord_id t;
     j_time_ms := t_time_ms t;
     j_players :=
       match select_player st (t_discord_id t) with
       | p :: _ => Some (p_tm_username p)
       | [] => None
       end |}.

(** [table('times').select('*, players(tm_username)').eq('map_number', m)] *)
Definition select_times_of_map (st : store) (map_num : Z) : list time_row_joined :=
  map (embed_player st) (filter (fun t => t_map_number t =? map_num) (times st)).

(** ** Leaderboard engine *)

Record lb_entry : Type := mk_entry
  { discord_id : pystr; tm_username : pystr; time_ms : Z }.

(** One turn of the loop in [get_map_leaderboard]; subscripting a null
    [entry['players']] raises [TypeError]. *)
Definition entry_of_row (entry : time_row_joined) : result lb_entry :=
  match j_players entry with
  | Some name =>
      Ok {| discord_id := j_discord_id entry; tm_username := name;
            time_ms := j_time_ms entry |}
  | None => Raise TypeError
  end.

(** [get_map_leaderboard] on the rows the query returned. *)
Definition leaderboard_of (data : list time_row_joined) : result (list lb_entry) :=
  leaderboard <- collect entry_of_row data ;;
  Ok (py_sorted Z.ltb time_ms leaderboard).

Definition get_map_leaderboard (st : store) (map_num : Z) : result (list lb_entry) :=
  leaderboard_of (select_times_of_map st map_num).

(** The loop [for i, entry in enumerate(leaderboard, i)] with its fall-through
    [return 0]. *)
Fixpoint position_from (i : Z) (leaderboard : list lb_entry) (id : pystr) : Z :=
  match leaderboard with
  | [] => 0
  | entry :: rest =>
      if str_eqb (discord_id entry) id then i else position_from (i + 1) rest id
  end.

(** [get_player_position] on a computed leaderboard. *)
Definition position_in (leaderboard : list lb_entry) (discord_id : Z) : Z :=
  position_from 1 leaderboard (py_str discord_id).

Definition get_player_position (st : store) (map_num : Z) (discord_id : Z) : result Z :=
  leaderboard <- get_map_leaderboard st map_num ;;
  Ok (position_in leaderboard discord_id).

(** [diff = entry['time_ms'] - map_lb[0]['time_ms']] of the leaderboard
    displays. *)
Definition gap_to_leader (map_lb : list lb_entry) (entry : lb_entry) : result Z :=
  leader <- py_getitem map_lb 0 ;;
  Ok (time_ms entry - time_ms leader).

Record standing : Type := mk_standing
  { s_discord_id : pystr; s_tm_username : pystr;
    s_points : Z; s_maps_completed : Z }.

(** [lambda x: (-x['points'], -x['maps_completed'])] *)
Definition standing_key (x : standing) : Z * Z :=
  (- s_points x, - s_maps_completed x).

(** The body of the loop over [players_result.data]. *)
Definition standing_of (st : store) (player : player_row) : result standing :=
  let discord_id := p_discord_id player in
  let times_result := select_times_of_player st discord_id in
  let maps_completed := Z.of_nat (length times_result) in
  total_points <-
    for_each
      (fun total_points time_entry =>
         id <- py_int discord_id ;;
         position <- get_player_position st (t_map_number time_entry) id ;;
         points <- get_points_for_position position ;;
         Ok (total_points + points))
      times_result 0 ;;
  Ok {| s_discord_id := discord_id;
        s_tm_username := p_tm_username player;
        s_points := total_points;
        s_maps_completed := maps_completed |}.

Definition get_overall_standings (st : store) : result (list standing) :=
  standings <- collect (standing_of st) (players st) ;;
  Ok (py_sorted tuple_ltb standing_key standings).

(** ** Commands *)

Definition COMPETITION_MAPS : list (Z * pystr) :=
  [ (1, lit "ZOOP 01");
    (2, lit "Dirty Swervy 02");
    (3, lit "Cold and Mad 03");
    (4, lit "Grassy Guy 04");
    (5, lit "Cold and Mad Pt 2 05") ].

(** [map_num in COMPETITION_MAPS] *)
Definition in_competition_maps (map_num : Z) : bool :=
  existsb (fun kv => fst kv =? map_num) COMPETITION_MAPS.

(** What [register_player] answers. *)
Inductive register_outcome : Type :=
| UsernameTooLong
| Registered.

Definition register_player (st : store) (author : Z) (trackmania_username : pystr)
  : store * register_outcome :=
  if (50 <? Z.of_nat (length trackmania_username)) then (st, UsernameTooLong)
  else
    (upsert_player st {| p_discord_id := py_str author;
                         p_tm_username := trackmania_username |},
     Registered).

(** The extra field of the confirmation: first place, or a podium place. *)
Inductive highlight : Type :=
| FirstPlace
| OnPodium (position : Z)
| NoHighlight.

Definition highlight_of (position : Z) : highlight :=
  if position =? 1 then FirstPlace
  else if position <=? 3 then OnPodium position
  else NoHighlight.

(** What [submit_time] answers: one constructor per message it can send.
    [SubmitFailed] is the [except] branch around the write and the rank
    lookup. *)
Inductive submit_outcome : Type :=
| NotRegistered
| InvalidMap
| InvalidTimeFormat
| OutOfRange
| Submitted (player : pystr) (map_num : Z) (formatted_time : pystr)
            (position : Z) (extra : highlight)
| SubmitFailed (e : exn).

Definition submit_time (st : store) (author : Z) (map_num : Z) (time_str : pystr)
  : store * submit_outcome :=
  match select_player st (py_str author) with
  | [] => (st, NotRegistered)
  | player :: _ =>
      if negb (in_competition_maps map_num) then (st, InvalidMap)
      else
        match parse_time time_str with
        | None => (st, InvalidTimeFormat)
        | Some time_ms =>
            if negb ((1000 <=? time_ms) && (time_ms <=? 600000)) then (st, OutOfRange)
            else
              let tm_username := p_tm_username player in
              let st' := upsert_time st {| t_discord_id := py_str author;
                                           t_map_number := map_num;
                                           t_time_ms := time_ms |} in
              let formatted_time := format_time time_ms in
              match get_player_position st' map_num author with
              | Ok position =>
                  (st', Submitted tm_username map_num formatted_time position
                                  (highlight_of position))
              | Raise e => (st', SubmitFailed e)
              end
        end
  end.

(** The commands of the bot.  The three views and the help text only issue
    [select] queries. *)
Inductive command : Type :=
| CmdRegister (author : Z) (trackmania_username : pystr)
| CmdTime (author : Z) (map_num : Z) (time_str : pystr)
| CmdLeaderboard
| CmdMap (map_num : Z)
| CmdMyStats (author : Z)
| CmdHelp.

(** The store after a command. *)
Definition exec (st : store) (c : command) : store :=
  match c with
  | CmdRegister author name => fst (register_player st author name)
  | CmdTime author map_num time_str => fst (submit_time st author map_num time_str)
  | CmdLeaderboard | CmdMap _ | CmdMyStats _ | CmdHelp => st
  end.

Definition run (cmds : list command) (st : store) : store := fold_left exec cmds st.

(** ** The statements of the specification, in its own words *)

Definition all_digits (s : pystr) : Prop := Forall (fun c => is_digit c = true) s.

(** The fraction, right-padded with zeros to three digits. *)
Definition padded_fraction (f : pystr) : Z :=
  int_digits (f ++ repeat "0"%char (3 - length f)).

(** Shape 1: minutes ':' seconds (1-2 digits) ':' or '.' fraction (1-3 digits). *)
Definition shape_min_sec_frac (s : pystr) (v : Z) : Prop :=
  exists m sec sep f,
    s = m ++ ":"%char :: sec ++ sep :: f
    /\ all_digits m /\ (1 <= length m)%nat
    /\ all_digits sec /\ (1 <= length sec <= 2)%nat
    /\ (sep = ":"%char \/ sep = "."%char)
    /\ all_digits f /\ (1 <= length f <= 3)%nat
    /\ v = int_digits m * 60000 + int_digits sec * 1000 + padded_fraction f.

(** Shape 2: seconds '.' fraction (1-3 digits). *)
Definition shape_sec_frac (s : pystr) (v : Z) : Prop :=
  exists sec f,
    s = sec ++ "."%char :: f
    /\ all_digits sec /\ (1 <= length sec)%nat
    /\ all_digits f /\ (1 <= length f <= 3)%nat
    /\ v = int_digits sec * 1000 + padded_fraction f.

(** Shape 3: a bare non-negative integer, read as milliseconds. *)
Definition shape_millis (s : pystr) (v : Z) : Prop :=
  all_digits s /\ (1 <= length s)%nat /\ v = int_digits s.

(** The text [parse_time] matches against. *)
Definition normalized (s : pystr) : pystr := replace_comma (strip s).

(** A Player exists for the identity of [author]. *)
Definition registered (st : store) (author : Z) : Prop :=
  exists p, In p (players st) /\ p_discord_id p = py_str author.

(** The key of a time entry: (identity, map number). *)
Definition time_key (t : time_row) : pystr * Z := (t_discord_id t, t_map_number t).

(** All stored times lie between one second and ten minutes. *)
Definition times_in_range (st : store) : Prop :=
  Forall (fun t => 1000 <= t_time_ms t <= 600000) (times st).

(** The maps a player has a time entry for. *)
Definition maps_of_player (st : store) (id : pystr) : list Z :=
  nodup Z.eq_dec (map t_map_number (select_times_of_player st id)).

Definition sum_Z (l : list Z) : Z := fold_right Z.add 0 l.

(** The points a player earns on a map: [pointsForRank] of the player's
    rank on that map's leaderboard. *)
Definition points_on_map (st : store) (id : pystr) (map_num : Z) (points : Z) : Prop :=
  exists leaderboard,
    get_map_leaderboard st map_num = Ok leaderboard
    /\ get_points_for_position (position_from 1 leaderboard id) = Ok points.

(** The standings row of a player, as the specification describes it. *)
Definition standing_for (st : store) (player : player_row) (row : standing) : Prop :=
  s_discord_id row = p_discord_id player
  /\ s_tm_username row = p_tm_username player
  /\ s_maps_completed row = Z.of_nat (length (maps_of_player st (p_discord_id player)))
  /\ exists pts,
       Forall2 (points_on_map st (p_discord_id player))
               (maps_of_player st (p_discord_id player)) pts
       /\ s_points row = sum_Z pts.

(** Descending by points, then descending by maps completed. *)
Definition standing_ge (a b : standing) : Prop :=
  s_points a > s_points b
  \/ (s_points a = s_points b /\ s_maps_completed a >= s_maps_completed b).

Definition same_rank_key (a b : standing) : bool :=
  (s_points a =? s_points b) && (s_maps_completed a =? s_maps_completed b).

(** Well-formed stores: identities are the decimal text of an integer (they
    are written as [str(ctx.author.id)]), a time entry is unique for its
    (identity, map) key, and every time entry belongs to a player. *)
Definition canonical_id (id : pystr) : bool :=
  match py_int id with
  | Ok z => str_eqb (py_str z) id
  | Raise _ => false
  end.

Fixpoint unique_time_keys (tbl : list time_row) : bool :=
  match tbl with
  | [] => true
  | r :: tbl' => negb (existsb (same_time_key r) tbl') && unique_time_keys tbl'
  end.

Definition has_player (st : store) (t : time_row) : bool :=
  match select_player st (t_discord_id t) with
  | [] => false
  | _ :: _ => true
  end.

Definition store_wf (st : store) : bool :=
  forallb (fun p => canonical_id (p_discord_id p)) (players st)
  && unique_time_keys (times st)
  && forallb (has_player st) (times st).

(** ** Views *)

(** [enumerate(l, i)] *)
Fixpoint enumerate_from {A : Type} (i : Z) (l : list A) : list (Z * A) :=
  match l with
  | [] => []
  | x :: r => (i, x) :: enumerate_from (i + 1) r
  end.

(** [COMPETITION_MAPS[map_num]]; [None] stands for [KeyError]. *)
Definition map_name (map_num : Z) : option pystr :=
  option_map snd (find (fun kv => fst kv =? map_num) COMPETITION_MAPS).

(** One field of the map view: the data its name [#i - username] and its
    value (the time, then the split in parentheses from the second row on)
    are formatted from. *)
Record board_field : Type := mk_field
  { f_rank : Z; f_username : pystr; f_time : pystr; f_split : option pystr }.

(** What [show_map_leaderboard] answers; [ViewFailed] is its [except]
    branch. *)
Inductive map_view : Type :=
| ViewInvalidMap
| ViewNoTimes (name : pystr)
| ViewBoard (name : pystr) (fields : list board_field)
| ViewFailed.

(** One turn of the loop [for i, entry in enumerate(map_lb[:10], 1)]. *)
Definition board_field_of (map_lb : list lb_entry) (ie : Z * lb_entry)
  : result board_field :=
  let (i, entry) := ie in
  let time_str := format_time (time_ms entry) in
  if i =? 1 then
    Ok {| f_rank := i; f_username := tm_username entry;
          f_time := time_str; f_split := None |}
  else
    diff <- gap_to_leader map_lb entry ;;
    Ok {| f_rank := i; f_username := tm_username entry;
          f_time := time_str; f_split := Some (format_time diff) |}.

Definition show_map_leaderboard (st : store) (map_num : Z) : map_view :=
  if negb (in_competition_maps map_num) then ViewInvalidMap
  else
    match get_map_leaderboard st map_num with
    | Raise _ => ViewFailed
    | Ok map_lb =>
        match map_name map_num with
        | None => ViewFailed
        | Some name =>
            match map_lb with
            | [] => ViewNoTimes name
            | _ :: _ =>
                match collect (board_field_of map_lb)
                              (enumerate_from 1 (firstn 10 map_lb)) with
                | Ok fields => ViewBoard name fields
                | Raise _ => ViewFailed
                end
            end
        end
    end.

(** One field of the personal statistics: a map with the player's time,
    rank and points, or a map without a time. *)
Inductive stats_field : Type :=
| MapTime (name : pystr) (time_str : pystr) (position : Z) (points : Z)
| MapNoTime (name : pystr).

(** What [show_my_stats] answers; [StatsFailed] is its [except] branch. *)
Inductive stats_view : Type :=
| StatsNotRegistered
| Stats (tm_username : pystr) (fields : list stats_field) (total_points : Z)
| StatsFailed.

(** One turn of the loop over [COMPETITION_MAPS]: [player_time] is the
    first of the player's rows for the map. *)
Definition stats_step (st : store) (author : Z) (times_result : list time_row)
           (acc : Z * list stats_field) (kv : Z * pystr)
  : result (Z * list stats_field) :=
  let (total_points, fields) := acc in
  let (map_num, name) := kv in
  match find (fun t => t_map_number t =? map_num) times_result with
  | Some player_time =>
      let time_str := format_time (t_time_ms player_time) in
      position <- get_player_position st map_num author ;;
      points <- get_points_for_position position ;;
      Ok (total_points + points, fields ++ [MapTime name time_str position points])
  | None => Ok (total_points, fields ++ [MapNoTime name])
  end.

Definition show_my_stats (st : store) (author : Z) : stats_view :=
  match select_player st (py_str author) with
  | [] => StatsNotRegistered
  | player :: _ =>
      let tm_username := p_tm_username player in
      let times_result := select_times_of_player st (py_str author) in
      match for_each (stats_step st author times_result) COMPETITION_MAPS (0, []) with
      | Ok (total_points, fields) => Stats tm_username fields total_points
      | Raise _ => StatsFailed
      end
  end.

(** ** Further invariants of the store *)

(** One player row per identity. *)
Definition players_unique (st : store) : Prop :=
  NoDup (map p_discord_id (players st)).

(** Every time entry is for one of the five maps. *)
Definition maps_valid (st : store) : Prop :=
  Forall (fun t => 1 <= t_map_number t <= 5) (times st).

(** The rows of the [times] table for one map. *)
Definition times_of_map (st : store) (map_num : Z) : list time_row :=
  filter (fun t => t_map_number t =? map_num) (times st).

(** The player has a time entry for the map. *)
Definition has_time (st : store) (author : Z) (map_num : Z) : Prop :=
  exists t, In t (times st) /\ t_discord_id t = py_str author
            /\ t_map_number t = map_num.

(** The characters of a text are whitespace. *)
Definition all_space (s : pystr) : Prop := Forall (fun c => is_space c = true) s.

(** ** Auxiliary predicates of the proofs *)

(** An entry is its row with the player's name in place of the embedded
    record. *)
Definition entry_matches (r : time_row_joined) (e : lb_entry) : Prop :=
  discord_id e = j_discord_id r
  /\ j_players r = Some (tm_username e)
  /\ time_ms e = j_time_ms r.

(** Every time entry belongs to a player. *)
Definition times_have_players (st : store) : Prop :=
  forall t, In t (times st) ->
            exists p, In p (players st) /\ p_discord_id p = t_discord_id t.

(** The text does not end in whitespace. *)
Definition not_space_last (t : pystr) : Prop :=
  forall a c, t = a ++ [c] -> is_space c = false.

(** No whitespace and no comma: [strip] and [replace] leave the text alone. *)
Definition clean (s : pystr) : Prop :=
  Forall (fun c => is_space c = false /\ Ascii.eqb c ","%char = false) s.

(** [r] is empty or starts with a character outside [p]. *)
Definition stops (p : ascii -> bool) (r : pystr) : Prop :=
  match r with
  | [] => True
  | c :: _ => p c = false
  end.

(** The points [author] earns on a map, 0 where the lookup raises. *)
Definition map_points (st : store) (author : Z) (map_num : Z) : Z :=
  match get_player_position st map_num author with
  | Ok position =>
      match get_points_for_position position with
      | Ok points => points
      | Raise _ => 0
      end
  | Raise _ => 0
  end.

(** ** Example stores and rows *)

(** The three entries of the example: A, B and C with identities 1, 2, 3. *)
Definition example_rows : list time_row_joined :=
  [ mk_joined (py_str 1) 90000 (Some (lit "A"));
    mk_joined (py_str 2) 85000 (Some (lit "B"));
    mk_joined (py_str 3) 85000 (Some (lit "C")) ].

(** A store with one registered player and no times. *)
Definition one_player : store :=
  run [CmdRegister 7 (lit "Ann")] empty_store.

(** Two players: identity 1 drove all five maps, identity 2 only map 1,
    faster. *)
Definition two_players : store :=
  run [ CmdRegister 1 (lit "P"); CmdRegister 2 (lit "Q");
        CmdTime 1 1 (lit "1:30.000"); CmdTime 1 2 (lit "1:31.000");
        CmdTime 1 3 (lit "1:32.000"); CmdTime 1 4 (lit "1:33.000");
        CmdTime 1 5 (lit "1:34.000"); CmdTime 2 1 (lit "1:25.000") ]
      empty_store.

(** * Properties *)

(** ** Characters and decimal numerals *)

Ltac each_ascii c :=
  destruct c as [[] [] [] [] [] [] [] []]; vm_compute; try congruence; auto.

Lemma digit_not_space (c : ascii) : is_digit c = true -> is_space c = false.
Proof. each_ascii c. Qed.

Lemma digit_not_comma (c : ascii) : is_digit c = true -> Ascii.eqb c ","%char = false.
Proof. each_ascii c. Qed.

Lemma digit_not_colon (c : ascii) : is_digit c = true -> Ascii.eqb c ":"%char = false.
Proof. each_ascii c. Qed.

Lemma digit_not_dot (c : ascii) : is_digit c = true -> Ascii.eqb c "."%char = false.
Proof. each_ascii c. Qed.

Lemma digit_not_newline (c : ascii) : is_digit c = true -> (code c =? 10) = false.
Proof. each_ascii c. Qed.

Lemma newline_is_space (c : ascii) : (code c =? 10) = true -> is_space c = true.
Proof. each_ascii c. Qed.

Lemma digit_val_range (c : ascii) : is_digit c = true -> 0 <= digit_val c <= 9.
Proof.
  unfold is_digit, digit_val. intros H.
  apply andb_true_iff in H. destruct H as [H1 H2].
  apply Z.leb_le in H1. apply Z.leb_le in H2. lia.
Qed.

Lemma digit_char_spec (d : Z) :
  0 <= d <= 9 -> is_digit (digit_char d) = true /\ digit_val (digit_char d) = d.
Proof.
  intros H.
  assert (E : d = 0 \/ d = 1 \/ d = 2 \/ d = 3 \/ d = 4 \/ d = 5 \/ d = 6
              \/ d = 7 \/ d = 8 \/ d = 9) by lia.
  repeat (destruct E as [E | E]; [subst d; split; reflexivity |]).
  subst d; split; reflexivity.
Qed.

Lemma str_eqb_eq (a b : pystr) : str_eqb a b = true <-> a = b.
Proof.
  unfold str_eqb. destruct (list_eq_dec ascii_dec a b); split; congruence.
Qed.

Lemma str_eqb_refl (a : pystr) : str_eqb a a = true.
Proof. apply str_eqb_eq. reflexivity. Qed.

Lemma str_eqb_neq (a b : pystr) : str_eqb a b = false <-> a <> b.
Proof.
  unfold str_eqb. destruct (list_eq_dec ascii_dec a b); split; congruence.
Qed.

Lemma int_digits_snoc (s : pystr) (c : ascii) :
  int_digits (s ++ [c]) = 10 * int_digits s + digit_val c.
Proof. unfold int_digits. rewrite fold_left_app. reflexivity. Qed.

Lemma fold_digits_shift (s : pystr) (acc : Z) :
  fold_left (fun a c => 10 * a + digit_val c) s acc
  = acc * 10 ^ Z.of_nat (length s) + int_digits s.
Proof.
  unfold int_digits. revert acc.
  induction s as [| c s IH]; intros acc.
  - simpl. lia.
  - cbn [fold_left length]. rewrite IH. rewrite (IH (10 * 0 + digit_val c)).
    rewrite Nat2Z.inj_succ, Z.pow_succ_r by lia. ring.
Qed.

Lemma int_digits_app (a b : pystr) :
  int_digits (a ++ b) = int_digits a * 10 ^ Z.of_nat (length b) + int_digits b.
Proof.
  unfold int_digits at 1. rewrite fold_left_app.
  rewrite fold_digits_shift. reflexivity.
Qed.

Lemma int_digits_zeros (k : nat) : int_digits (repeat "0"%char k) = 0.
Proof.
  induction k as [| k IH]; [reflexivity |].
  change (repeat "0"%char (S k)) with (["0"%char] ++ repeat "0"%char k).
  rewrite int_digits_app, IH. reflexivity.
Qed.

Lemma int_digits_nonneg (s : pystr) : all_digits s -> 0 <= int_digits s.
Proof.
  induction s as [| c s IH] using rev_ind; intros H.
  - reflexivity.
  - apply Forall_app in H. destruct H as [Hs Hc].
    rewrite int_digits_snoc. inversion Hc; subst.
    pose proof (digit_val_range c H1). specialize (IH Hs). lia.
Qed.

Lemma all_digits_zeros (k : nat) : all_digits (repeat "0"%char k).
Proof. induction k; constructor; auto. Qed.

Lemma all_digits_forallb (s : pystr) : all_digits s <-> forallb is_digit s = true.
Proof.
  unfold all_digits. rewrite forallb_forall, Forall_forall. reflexivity.
Qed.

(** *** [str] of a non-negative integer *)

Lemma digits_fuel_all_digits (f : nat) :
  forall n, 0 <= n -> all_digits (digits_fuel f n).
Proof.
  induction f as [| f IH]; intros n Hn; simpl.
  - constructor.
  - destruct (n <? 10) eqn:E.
    + apply Z.ltb_lt in E. constructor; [| constructor].
      apply digit_char_spec. lia.
    + apply Z.ltb_ge in E. apply Forall_app. split.
      * apply IH. apply Z.div_pos; lia.
      * constructor; [| constructor].
        apply digit_char_spec. pose proof (Z.mod_pos_bound n 10). lia.
Qed.

Lemma digits_fuel_value (f : nat) :
  forall n, 0 <= n < 2 ^ Z.of_nat f -> (0 < f)%nat ->
            int_digits (digits_fuel f n) = n.
Proof.
  induction f as [| f IH]; intros n Hn Hf; [lia |].
  simpl digits_fuel.
  rewrite Nat2Z.inj_succ, Z.pow_succ_r in Hn by lia.
  destruct (n <? 10) eqn:E.
  - apply Z.ltb_lt in E. cbn. apply digit_char_spec. lia.
  - apply Z.ltb_ge in E.
    rewrite int_digits_snoc.
    assert (Hf' : (0 < f)%nat).
    { destruct f; [simpl in Hn; lia | lia]. }
    rewrite IH; [| | exact Hf'].
    + pose proof (Z.mod_pos_bound n 10).
      destruct (digit_char_spec (n mod 10)) as [_ ->]; [lia |].
      pose proof (Z.div_mod n 10). lia.
    + split; [apply Z.div_pos; lia |].
      apply Z.div_lt_upper_bound; lia.
Qed.

Lemma digits_fuel_nonempty (f : nat) (n : Z) :
  (0 < f)%nat -> (1 <= length (digits_fuel f n))%nat.
Proof.
  destruct f as [| f]; [lia |]. intros _. simpl.
  destruct (n <? 10); [simpl; lia |].
  rewrite length_app. simpl. lia.
Qed.

Lemma digits_fuel_length (f : nat) :
  forall (k : nat) n, 0 <= n < 10 ^ Z.of_nat k -> (1 <= k)%nat ->
                      (length (digits_fuel f n) <= k)%nat.
Proof.
  induction f as [| f IH]; intros k n Hn Hk; simpl; [lia |].
  destruct (n <? 10) eqn:E; [simpl; lia |].
  apply Z.ltb_ge in E.
  rewrite length_app. simpl.
  destruct k as [| [| k]]; [lia | simpl in Hn; lia |].
  rewrite Nat2Z.inj_succ, Z.pow_succ_r in Hn by lia.
  assert (length (digits_fuel f (n / 10)) <= S k)%nat; [| lia].
  apply IH; [| lia].
  split; [apply Z.div_pos; lia |].
  apply Z.div_lt_upper_bound; lia.
Qed.

Lemma str_nat_fuel (n : Z) :
  0 <= n -> n < 2 ^ Z.of_nat (S (Z.to_nat (Z.log2 n))).
Proof.
  intros Hn.
  rewrite Nat2Z.inj_succ, Z2Nat.id by apply Z.log2_nonneg.
  destruct (Z.eq_dec n 0) as [-> | Hz]; [reflexivity |].
  apply Z.log2_spec. lia.
Qed.

Lemma str_nat_value (n : Z) : 0 <= n -> int_digits (str_nat n) = n.
Proof.
  intros Hn. unfold str_nat. apply digits_fuel_value; [| lia].
  split; [exact Hn | apply str_nat_fuel; exact Hn].
Qed.

Lemma str_nat_all_digits (n : Z) : 0 <= n -> all_digits (str_nat n).
Proof. intros Hn. apply digits_fuel_all_digits. exact Hn. Qed.

Lemma str_nat_nonempty (n : Z) : (1 <= length (str_nat n))%nat.
Proof. apply digits_fuel_nonempty. lia. Qed.

Lemma str_nat_length (k : nat) (n : Z) :
  0 <= n < 10 ^ Z.of_nat k -> (1 <= k)%nat -> (length (str_nat n) <= k)%nat.
Proof. intros. apply digits_fuel_length; assumption. Qed.

(** *** Zero padding *)

Lemma zero_pad_all_digits (w : nat) (s : pystr) :
  all_digits s -> all_digits (zero_pad w s).
Proof. intros H. apply Forall_app. split; [apply all_digits_zeros | exact H]. Qed.

Lemma zero_pad_value (w : nat) (s : pystr) :
  int_digits (zero_pad w s) = int_digits s.
Proof.
  unfold zero_pad. rewrite int_digits_app, int_digits_zeros. lia.
Qed.

Lemma zero_pad_length (w : nat) (s : pystr) :
  length (zero_pad w s) = Nat.max w (length s).
Proof. unfold zero_pad. rewrite length_app, repeat_length. lia. Qed.

Lemma format_0d_nonneg (w : nat) (n : Z) :
  0 <= n -> format_0d w n = zero_pad w (str_nat n).
Proof.
  intros Hn. unfold format_0d.
  destruct (n <? 0) eqn:E; [apply Z.ltb_lt in E; lia | reflexivity].
Qed.

(** ** [strip], [replace] and the text the patterns see *)

Lemma lstrip_head (s : pystr) :
  match lstrip s with
  | [] => True
  | c :: _ => is_space c = false
  end.
Proof.
  induction s as [| c s IH]; simpl; [exact I |].
  destruct (is_space c) eqn:E; [exact IH | exact E].
Qed.

Lemma strip_last (s : pystr) : not_space_last (strip s).
Proof.
  intros a c H. unfold strip, rstrip in H.
  pose proof (lstrip_head (rev (lstrip s))) as Hh.
  apply (f_equal (@rev ascii)) in H.
  rewrite rev_involutive, rev_app_distr in H. simpl in H.
  rewrite H in Hh. exact Hh.
Qed.

Lemma normalized_last (s : pystr) : not_space_last (normalized s).
Proof.
  intros a c H. unfold normalized, replace_comma in H.
  apply map_eq_app in H. destruct H as (a' & l' & Hs & _ & Hl).
  destruct l' as [| c' [| ? ?]]; try discriminate.
  injection Hl as Hc.
  pose proof (strip_last s a' c' Hs) as Hsp.
  destruct (Ascii.eqb c' ","%char) eqn:E; subst c; [reflexivity | exact Hsp].
Qed.

(** On such a text [$] can only be the end of the string. *)
Lemma at_dollar_end (a r : pystr) :
  not_space_last (a ++ r) -> at_dollar r = true -> r = [].
Proof.
  intros Hl Hd. destruct r as [| c [| ? ?]]; [reflexivity | | discriminate].
  simpl in Hd. apply newline_is_space in Hd.
  rewrite (Hl a c eq_refl) in Hd. discriminate.
Qed.

Lemma lstrip_clean (s : pystr) : clean s -> lstrip s = s.
Proof.
  intros H. destruct s as [| c s]; [reflexivity |].
  inversion H as [| ? ? [Hc _] _]; subst. simpl. rewrite Hc. reflexivity.
Qed.

Lemma normalized_clean (s : pystr) : clean s -> normalized s = s.
Proof.
  intros H. unfold normalized, strip, rstrip.
  rewrite (lstrip_clean s H).
  rewrite lstrip_clean by (apply Forall_rev; exact H).
  rewrite rev_involutive.
  unfold replace_comma. induction H as [| c s [_ Hc] _ IH]; [reflexivity |].
  simpl. rewrite Hc, IH. reflexivity.
Qed.

Lemma clean_digits (s : pystr) : all_digits s -> clean s.
Proof.
  intros H. eapply Forall_impl; [| exact H].
  intros c Hc. split; [apply digit_not_space | apply digit_not_comma]; exact Hc.
Qed.

Lemma clean_app (a b : pystr) : clean a -> clean b -> clean (a ++ b).
Proof. intros Ha Hb. apply Forall_app. split; assumption. Qed.

Lemma clean_cons (c : ascii) (s : pystr) :
  is_space c = false -> Ascii.eqb c ","%char = false -> clean s -> clean (c :: s).
Proof. intros. constructor; auto. Qed.

(** ** The three patterns *)

Lemma span_spec (p : ascii -> bool) (s : pystr) :
  forall a b, span p s = (a, b) ->
              s = a ++ b /\ Forall (fun c => p c = true) a /\ stops p b.
Proof.
  induction s as [| c s IH]; intros a b H; simpl in H.
  - injection H as <- <-. repeat split; constructor.
  - destruct (p c) eqn:E.
    + destruct (span p s) as [a' b'] eqn:Es. injection H as <- <-.
      destruct (IH a' b' eq_refl) as (-> & Ha & Hb).
      repeat split; [constructor; assumption | exact Hb].
    + injection H as <- <-. repeat split; [constructor | exact E].
Qed.

Lemma span_app (p : ascii -> bool) (a b : pystr) :
  Forall (fun c => p c = true) a -> stops p b -> span p (a ++ b) = (a, b).
Proof.
  intros Ha Hb. induction Ha as [| c a Hc _ IH]; simpl.
  - destruct b as [| c b]; [reflexivity |]. simpl in *. rewrite Hb. reflexivity.
  - cbv beta in Hc. rewrite Hc, IH. reflexivity.
Qed.

Lemma count_in_spec (lo hi : nat) (s : pystr) :
  count_in lo hi s = true <-> (lo <= length s <= hi)%nat.
Proof.
  unfold count_in. rewrite andb_true_iff, !Nat.leb_le. reflexivity.
Qed.

Lemma nonempty_length (s : pystr) : (1 <= length s)%nat <-> s <> [].
Proof. destruct s; simpl; split; intros; try congruence; lia. Qed.

Lemma match_min_sec_ms_some (s m sec f : pystr) :
  match_min_sec_ms s = Some (m, sec, f) ->
  exists sep r,
    s = m ++ ":"%char :: sec ++ sep :: f ++ r
    /\ all_digits m /\ (1 <= length m)%nat
    /\ all_digits sec /\ (1 <= length sec <= 2)%nat
    /\ (sep = ":"%char \/ sep = "."%char)
    /\ all_digits f /\ (1 <= length f <= 3)%nat
    /\ at_dollar r = true.
Proof.
  unfold match_min_sec_ms.
  destruct (span is_digit s) as [m' r1] eqn:E1.
  destruct m' as [| d m']; [discriminate |].
  destruct r1 as [| c1 r2]; [discriminate |].
  destruct (Ascii.eqb c1 ":"%char) eqn:Ec1; [| discriminate].
  destruct (span is_digit r2) as [sec' r3] eqn:E2.
  destruct r3 as [| c2 r4]; [discriminate |].
  destruct (count_in 1 2 sec') eqn:Ecs; [| discriminate].
  destruct (Ascii.eqb c2 ":"%char || Ascii.eqb c2 "."%char) eqn:Ec2; [| discriminate].
  simpl andb.
  destruct (span is_digit r4) as [f' r5] eqn:E3.
  destruct (count_in 1 3 f') eqn:Ecf; [| discriminate].
  destruct (at_dollar r5) eqn:Ed; [| discriminate].
  simpl. intros H. injection H as <- <- <-.
  apply span_spec in E1. destruct E1 as (-> & Hm & _).
  apply span_spec in E2. destruct E2 as (-> & Hs & _).
  apply span_spec in E3. destruct E3 as (-> & Hf & _).
  apply Ascii.eqb_eq in Ec1. subst c1.
  apply count_in_spec in Ecs. apply count_in_spec in Ecf.
  exists c2, r5. rewrite <- ?app_assoc. simpl.
  repeat split; auto; try (simpl; lia).
  apply orb_true_iff in Ec2.
  destruct Ec2 as [H | H]; apply Ascii.eqb_eq in H; auto.
Qed.

Lemma match_min_sec_ms_intro (m sec f r : pystr) (sep : ascii) :
  all_digits m -> (1 <= length m)%nat ->
  all_digits sec -> (1 <= length sec <= 2)%nat ->
  sep = ":"%char \/ sep = "."%char ->
  all_digits f -> (1 <= length f <= 3)%nat ->
  at_dollar r = true ->
  match_min_sec_ms (m ++ ":"%char :: sec ++ sep :: f ++ r) = Some (m, sec, f).
Proof.
  intros Hm Lm Hs Ls Hsep Hf Lf Hr.
  unfold match_min_sec_ms.
  rewrite (span_app is_digit m) by (auto; reflexivity).
  destruct m as [| d m]; [simpl in Lm; lia |].
  rewrite Ascii.eqb_refl.
  rewrite (span_app is_digit sec);
    [| exact Hs | destruct Hsep; subst sep; reflexivity].
  apply count_in_spec in Ls. rewrite Ls.
  replace (Ascii.eqb sep ":"%char || Ascii.eqb sep "."%char) with true
    by (destruct Hsep; subst sep; reflexivity).
  simpl andb.
  rewrite (span_app is_digit f); [| exact Hf |].
  - apply count_in_spec in Lf. rewrite Lf, Hr. reflexivity.
  - destruct r as [| c [| ? ?]]; simpl in *; try discriminate; auto.
    destruct (is_digit c) eqn:E; [| reflexivity].
    apply digit_not_newline in E. congruence.
Qed.

Lemma match_sec_ms_some (s sec f : pystr) :
  match_sec_ms s = Some (sec, f) ->
  exists r,
    s = sec ++ "."%char :: f ++ r
    /\ all_digits sec /\ (1 <= length sec)%nat
    /\ all_digits f /\ (1 <= length f <= 3)%nat
    /\ at_dollar r = true.
Proof.
  unfold match_sec_ms.
  destruct (span is_digit s) as [sec' r1] eqn:E1.
  destruct sec' as [| d sec']; [discriminate |].
  destruct r1 as [| c1 r2]; [discriminate |].
  destruct (Ascii.eqb c1 "."%char) eqn:Ec1; [| discriminate].
  destruct (span is_digit r2) as [f' r3] eqn:E2.
  destruct (count_in 1 3 f') eqn:Ecf; [| discriminate].
  destruct (at_dollar r3) eqn:Ed; [| discriminate].
  simpl. intros H. injection H as <- <-.
  apply span_spec in E1. destruct E1 as (-> & Hs & _).
  apply span_spec in E2. destruct E2 as (-> & Hf & _).
  apply Ascii.eqb_eq in Ec1. subst c1.
  apply count_in_spec in Ecf.
  exists r3. rewrite <- ?app_assoc. simpl.
  repeat split; auto; try (simpl; lia).
Qed.

Lemma match_sec_ms_intro (sec f r : pystr) :
  all_digits sec -> (1 <= length sec)%nat ->
  all_digits f -> (1 <= length f <= 3)%nat ->
  at_dollar r = true ->
  match_sec_ms (sec ++ "."%char :: f ++ r) = Some (sec, f).
Proof.
  intros Hs Ls Hf Lf Hr.
  unfold match_sec_ms.
  rewrite (span_app is_digit sec) by (auto; reflexivity).
  destruct sec as [| d sec]; [simpl in Ls; lia |].
  rewrite Ascii.eqb_refl.
  rewrite (span_app is_digit f); [| exact Hf |].
  - apply count_in_spec in Lf. rewrite Lf, Hr. reflexivity.
  - destruct r as [| c [| ? ?]]; simpl in *; try discriminate; auto.
    destruct (is_digit c) eqn:E; [| reflexivity].
    apply digit_not_newline in E. congruence.
Qed.

Lemma match_raw_ms_some (s ms : pystr) :
  match_raw_ms s = Some ms ->
  exists r, s = ms ++ r /\ all_digits ms /\ (1 <= length ms)%nat
            /\ at_dollar r = true.
Proof.
  unfold match_raw_ms.
  destruct (span is_digit s) as [ms' r1] eqn:E1.
  destruct ms' as [| d ms']; [discriminate |].
  destruct (at_dollar r1) eqn:Ed; [| discriminate].
  intros H. injection H as <-.
  apply span_spec in E1. destruct E1 as (-> & Hs & _).
  exists r1. repeat split; auto; try (simpl; lia).
Qed.

Lemma match_raw_ms_intro (ms : pystr) :
  all_digits ms -> (1 <= length ms)%nat -> match_raw_ms ms = Some ms.
Proof.
  intros Hs Ls. unfold match_raw_ms.
  rewrite <- (app_nil_r ms) at 1.
  rewrite (span_app is_digit ms) by (auto; exact I).
  destruct ms; [simpl in Ls; lia | reflexivity].
Qed.

(** A text that is digits followed by something other than ':' is not of
    the first shape; one followed by something other than '.' is not of the
    second. *)
Lemma match_min_sec_ms_no_colon (d r : pystr) :
  all_digits d ->
  match r with [] => True | c :: _ => is_digit c = false /\ c <> ":"%char end ->
  match_min_sec_ms (d ++ r) = None.
Proof.
  intros Hd Hr. unfold match_min_sec_ms.
  rewrite (span_app is_digit d r Hd);
    [| destruct r; [exact I | apply Hr]].
  destruct d; [reflexivity |].
  destruct r as [| c r]; [reflexivity |].
  destruct Hr as [_ Hc]. apply Ascii.eqb_neq in Hc. rewrite Hc. reflexivity.
Qed.

Lemma match_sec_ms_no_dot (d : pystr) :
  all_digits d -> match_sec_ms d = None.
Proof.
  intros Hd. unfold match_sec_ms.
  rewrite <- (app_nil_r d).
  rewrite (span_app is_digit d [] Hd I).
  destruct d; reflexivity.
Qed.

Lemma fraction_padding (f : pystr) :
  (length f <= 3)%nat ->
  int_digits (firstn 3 (ljust0 3 f)) = padded_fraction f.
Proof.
  intros L. unfold padded_fraction, ljust0.
  rewrite firstn_all2; [reflexivity |].
  rewrite length_app, repeat_length. lia.
Qed.

(** ** [parse_time] against the three shapes *)

Lemma parse_time_min_sec_frac (s : pystr) (v : Z) :
  shape_min_sec_frac (normalized s) v -> parse_time s = Some v.
Proof.
  intros (m & sec & sep & f & Ht & Hm & Lm & Hs & Ls & Hsep & Hf & Lf & ->).
  unfold parse_time. change (replace_comma (strip s)) with (normalized s).
  rewrite Ht. rewrite <- (app_nil_r f) at 1.
  rewrite match_min_sec_ms_intro by auto.
  rewrite fraction_padding by lia. reflexivity.
Qed.

Lemma parse_time_sec_frac (s : pystr) (v : Z) :
  shape_sec_frac (normalized s) v -> parse_time s = Some v.
Proof.
  intros (sec & f & Ht & Hs & Ls & Hf & Lf & ->).
  unfold parse_time. change (replace_comma (strip s)) with (normalized s).
  rewrite Ht.
  rewrite match_min_sec_ms_no_colon;
    [| exact Hs | split; [reflexivity | discriminate]].
  rewrite <- (app_nil_r f) at 1.
  rewrite match_sec_ms_intro by auto.
  rewrite fraction_padding by lia. reflexivity.
Qed.

Lemma parse_time_millis (s : pystr) (v : Z) :
  shape_millis (normalized s) v -> parse_time s = Some v.
Proof.
  intros (Hd & Ld & ->).
  unfold parse_time. change (replace_comma (strip s)) with (normalized s).
  rewrite <- (app_nil_r (normalized s)) at 1.
  rewrite match_min_sec_ms_no_colon by (auto; exact I).
  rewrite match_sec_ms_no_dot by exact Hd.
  rewrite match_raw_ms_intro by auto. reflexivity.
Qed.

Lemma parse_time_inv (s : pystr) (v : Z) :
  parse_time s = Some v ->
  shape_min_sec_frac (normalized s) v
  \/ shape_sec_frac (normalized s) v
  \/ shape_millis (normalized s) v.
Proof.
  unfold parse_time. change (replace_comma (strip s)) with (normalized s).
  pose proof (normalized_last s) as Hl.
  destruct (match_min_sec_ms (normalized s)) as [[[m sec] f] |] eqn:E1.
  { apply match_min_sec_ms_some in E1.
    destruct E1 as (sep & r & Ht & Hm & Lm & Hs & Ls & Hsep & Hf & Lf & Hr).
    rewrite fraction_padding by lia.
    intros H. injection H as <-. left.
    assert (r = []) as ->.
    { apply (at_dollar_end (m ++ ":"%char :: sec ++ sep :: f)); [| exact Hr].
      rewrite Ht in Hl. rewrite <- app_assoc. simpl.
      rewrite <- app_assoc. simpl. exact Hl. }
    rewrite app_nil_r in Ht.
    exists m, sec, sep, f. auto 12. }
  destruct (match_sec_ms (normalized s)) as [[sec f] |] eqn:E2.
  { apply match_sec_ms_some in E2.
    destruct E2 as (r & Ht & Hs & Ls & Hf & Lf & Hr).
    rewrite fraction_padding by lia.
    intros H. injection H as <-. right. left.
    assert (r = []) as ->.
    { apply (at_dollar_end (sec ++ "."%char :: f)); [| exact Hr].
      rewrite Ht in Hl. rewrite <- app_assoc. simpl. exact Hl. }
    rewrite app_nil_r in Ht.
    exists sec, f. auto 12. }
  destruct (match_raw_ms (normalized s)) as [ms |] eqn:E3; [| discriminate].
  intros H. injection H as <-. right. right.
  apply match_raw_ms_some in E3.
  destruct E3 as (r & Ht & Hd & Ld & Hr).
  assert (r = []) as ->.
  { apply (at_dollar_end ms); [| exact Hr]. rewrite <- Ht. exact Hl. }
  rewrite app_nil_r in Ht. rewrite Ht. repeat split; auto.
Qed.

(** ** [format_time] *)

Lemma int_digits_bound (s : pystr) :
  all_digits s -> int_digits s < 10 ^ Z.of_nat (length s).
Proof.
  induction s as [| c s IH] using rev_ind; intros H.
  - reflexivity.
  - apply Forall_app in H. destruct H as [Hs Hc].
    rewrite int_digits_snoc, length_app. simpl length.
    replace (Z.of_nat (length s + 1)) with (Z.succ (Z.of_nat (length s))) by lia.
    rewrite Z.pow_succ_r by lia.
    inversion Hc; subst. pose proof (digit_val_range c H1).
    specialize (IH Hs). lia.
Qed.

Lemma time_fields (ms : Z) :
  0 < ms ->
  0 <= ms / 60000
  /\ 0 <= (ms mod 60000) / 1000 <= 59
  /\ 0 <= ms mod 1000 <= 999
  /\ ms = (ms / 60000) * 60000 + ((ms mod 60000) / 1000) * 1000 + ms mod 1000.
Proof. intros H. Z.div_mod_to_equations. lia. Qed.

Lemma format_time_fields (ms : Z) :
  0 < ms ->
  exists mm ss fff,
    format_time ms = mm ++ ":"%char :: ss ++ "."%char :: fff
    /\ all_digits mm /\ all_digits ss /\ all_digits fff
    /\ length mm = Nat.max 2 (length (str_nat (ms / 60000)))
    /\ length ss = 2%nat /\ length fff = 3%nat
    /\ int_digits mm = ms / 60000
    /\ int_digits ss = (ms mod 60000) / 1000
    /\ int_digits fff = ms mod 1000.
Proof.
  intros H. destruct (time_fields ms H) as (Hm & Hs & Hf & _).
  unfold format_time.
  destruct (ms <=? 0) eqn:E; [apply Z.leb_le in E; lia |].
  rewrite !format_0d_nonneg by lia.
  exists (zero_pad 2 (str_nat (ms / 60000))),
         (zero_pad 2 (str_nat ((ms mod 60000) / 1000))),
         (zero_pad 3 (str_nat (ms mod 1000))).
  rewrite !zero_pad_value, !str_nat_value by lia.
  rewrite !zero_pad_length.
  pose proof (str_nat_nonempty ((ms mod 60000) / 1000)).
  pose proof (str_nat_nonempty (ms mod 1000)).
  assert (length (str_nat ((ms mod 60000) / 1000)) <= 2)%nat
    by (apply str_nat_length; [change (10 ^ Z.of_nat 2) with 100 |]; lia).
  assert (length (str_nat (ms mod 1000)) <= 3)%nat
    by (apply str_nat_length; [change (10 ^ Z.of_nat 3) with 1000 |]; lia).
  repeat split;
    try (apply zero_pad_all_digits, str_nat_all_digits; lia);
    try reflexivity;
    lia.
Qed.

Lemma format_time_clean (ms : Z) : clean (format_time ms).
Proof.
  destruct (Z_lt_le_dec 0 ms) as [H | H].
  - destruct (format_time_fields ms H) as (mm & ss & fff & -> & Hm & Hs & Hf & _).
    apply clean_app; [apply clean_digits; exact Hm |].
    apply clean_cons; [reflexivity | reflexivity |].
    apply clean_app; [apply clean_digits; exact Hs |].
    apply clean_cons; [reflexivity | reflexivity |].
    apply clean_digits; exact Hf.
  - unfold format_time.
    destruct (ms <=? 0) eqn:E; [| apply Z.leb_gt in E; lia].
    repeat (apply clean_cons; [reflexivity | reflexivity |]). constructor.
Qed.

Lemma digit_prefix_unique (a a' r r' : pystr) :
  all_digits a -> all_digits a' -> stops is_digit r -> stops is_digit r' ->
  a ++ r = a' ++ r' -> a = a' /\ r = r'.
Proof.
  intros Ha Ha' Hr Hr' E.
  pose proof (span_app is_digit a r Ha Hr) as S1.
  pose proof (span_app is_digit a' r' Ha' Hr') as S2.
  rewrite E in S1. rewrite S1 in S2. injection S2 as -> ->. auto.
Qed.

(** ** Scoring table *)

Lemma points_beyond_table (r : Z) : 10 < r -> get_points_for_position r = Ok 1.
Proof.
  intros H. unfold get_points_for_position.
  destruct (r =? 0) eqn:E0; [apply Z.eqb_eq in E0; lia |].
  destruct (r <=? Z.of_nat (length point_values)) eqn:E1; [| reflexivity].
  apply Z.leb_le in E1. simpl in E1. lia.
Qed.

Lemma points_by_rank (r : Z) :
  1 <= r ->
  (r = 1 /\ get_points_for_position r = Ok 25)
  \/ (r = 2 /\ get_points_for_position r = Ok 18)
  \/ (r = 3 /\ get_points_for_position r = Ok 15)
  \/ (r = 4 /\ get_points_for_position r = Ok 12)
  \/ (r = 5 /\ get_points_for_position r = Ok 10)
  \/ (r = 6 /\ get_points_for_position r = Ok 8)
  \/ (r = 7 /\ get_points_for_position r = Ok 6)
  \/ (r = 8 /\ get_points_for_position r = Ok 4)
  \/ (r = 9 /\ get_points_for_position r = Ok 2)
  \/ (r = 10 /\ get_points_for_position r = Ok 1)
  \/ (10 < r /\ get_points_for_position r = Ok 1).
Proof.
  intros H.
  destruct (Z_lt_le_dec 10 r) as [Hb | Hb].
  - do 10 right. split; [exact Hb | apply points_beyond_table; exact Hb].
  - assert (E : r = 1 \/ r = 2 \/ r = 3 \/ r = 4 \/ r = 5 \/ r = 6 \/ r = 7
                \/ r = 8 \/ r = 9 \/ r = 10) by lia.
    repeat (destruct E as [E | E]; [subst r; tauto |]). subst r; tauto.
Qed.

(** C1 (as amended).  For every rank [>= 0]: rank 0 earns 0 points, a rank
    from 1 to 10 earns the entry at that (1-based) position of the table
    [25,18,15,12,10,8,6,4,2,1], a rank above 10 earns 1 point, and the
    function returns a value (it raises nothing) on every such rank. *)
Theorem points_for_rank_contract (rank : Z) :
  0 <= rank ->
  point_values = [25; 18; 15; 12; 10; 8; 6; 4; 2; 1]
  /\ (rank = 0 -> get_points_for_position rank = Ok 0)
  /\ (1 <= rank <= 10 ->
      exists p, nth_error point_values (Z.to_nat (rank - 1)) = Some p
                /\ get_points_for_position rank = Ok p)
  /\ (10 < rank -> get_points_for_position rank = Ok 1)
  /\ exists p, get_points_for_position rank = Ok p.
Proof.
  intros H. split; [reflexivity |]. split; [| split; [| split]].
  - intros ->. reflexivity.
  - intros Hr.
    destruct (points_by_rank rank ltac:(lia)) as [C | C];
      repeat (destruct C as [C | C]; [destruct C as [-> C]; eexists; split;
                                      [reflexivity | exact C] |]);
      try (destruct C as [-> C]; eexists; split; [reflexivity | exact C]).
    destruct C; lia.
  - apply points_beyond_table.
  - destruct (Z.eq_dec rank 0) as [-> | Hz]; [exists 0; reflexivity |].
    destruct (points_by_rank rank ltac:(lia)) as [C | C];
      repeat (destruct C as [C | C]; [destruct C as [_ C]; eexists; exact C |]);
      destruct C as [_ C]; eexists; exact C.
Qed.

Lemma points_for_rank_contract_witness :
  0 <= 5 /\ get_points_for_position 5 = Ok 10
  /\ get_points_for_position 1 = Ok 25
  /\ get_points_for_position 10 = Ok 1
  /\ get_points_for_position 11 = Ok 1
  /\ get_points_for_position 0 = Ok 0.
Proof.
  split; [lia |].
  split; [| repeat split; reflexivity].
  destruct (points_for_rank_contract 5 ltac:(lia)) as (_ & _ & H & _).
  destruct (H ltac:(lia)) as (p & Hp & ->).
  injection Hp as <-. reflexivity.
Defined.

(** C1, as first stated, fails below zero: Python's negative indices read
    the table from its end (rank -1 earns 2 points, not 0), and rank -10
    indexes position -11 of a ten-element list, which raises [IndexError]. *)
Lemma points_for_negative_rank :
  -1 <= 0
  /\ get_points_for_position (-1) = Ok 2
  /\ get_points_for_position (-1) <> Ok 0
  /\ get_points_for_position (-10) = Raise IndexError.
Proof. repeat split; try reflexivity; [lia | discriminate]. Qed.

(** C10.  On ranks [>= 1] the points never increase with the rank. *)
Theorem points_monotone (r1 r2 : Z) :
  1 <= r1 <= r2 ->
  exists p1 p2,
    get_points_for_position r1 = Ok p1
    /\ get_points_for_position r2 = Ok p2
    /\ p1 >= p2.
Proof.
  intros [H1 H2].
  pose proof (points_by_rank r1 H1) as C1.
  pose proof (points_by_rank r2 ltac:(lia)) as C2.
  repeat (destruct C1 as [[E1 P1] | C1]; [rewrite P1 |]);
    try (destruct C1 as [E1 P1]; rewrite P1);
    repeat (destruct C2 as [[E2 P2] | C2];
            [rewrite P2; do 2 eexists; repeat split; lia |]);
    try (destruct C2 as [E2 P2]; rewrite P2; do 2 eexists; repeat split; lia).
Qed.

Lemma points_monotone_witness :
  1 <= 3 <= 7
  /\ exists p1 p2,
       get_points_for_position 3 = Ok p1
       /\ get_points_for_position 7 = Ok p2
       /\ p1 >= p2.
Proof. split; [lia | apply (points_monotone 3 7); lia]. Defined.

(** ** Time codec *)

Lemma format_time_shape (t : Z) :
  0 < t -> shape_min_sec_frac (format_time t) t.
Proof.
  intros H.
  destruct (format_time_fields t H)
    as (mm & ss & fff & E & Hm & Hs & Hf & Lm & Ls & Lf & Vm & Vs & Vf).
  exists mm, ss, "."%char, fff.
  unfold padded_fraction. rewrite Lf, app_nil_r, Vm, Vs, Vf.
  destruct (time_fields t H) as (_ & _ & _ & Et).
  repeat split; auto; lia.
Qed.

(** C2.  Round trip: for every integer [t > 0], parsing the formatted text
    succeeds and gives [t] back. *)
Theorem parse_format_roundtrip (t : Z) :
  0 < t -> parse_time (format_time t) = Some t.
Proof.
  intros H. apply parse_time_min_sec_frac.
  rewrite normalized_clean by apply format_time_clean.
  apply format_time_shape. exact H.
Qed.

Lemma parse_format_roundtrip_witness :
  0 < 83456
  /\ format_time 83456 = lit "01:23.456"
  /\ parse_time (format_time 83456) = Some 83456.
Proof.
  split; [lia |]. split; [reflexivity |].
  apply (parse_format_roundtrip 83456). lia.
Defined.

(** C3.  After trimming whitespace and replacing commas by periods,
    [parse_time] succeeds exactly on the three anchored shapes, with the
    value each shape prescribes (the fraction right-padded with zeros to
    three digits), and answers [None] on every other text; "abc", the empty
    text and "1:2:3:4" are rejected and "1:2.4" is 62400 ms. *)
Theorem parse_time_three_shapes :
  (forall s v,
      parse_time s = Some v <->
      shape_min_sec_frac (normalized s) v
      \/ shape_sec_frac (normalized s) v
      \/ shape_millis (normalized s) v)
  /\ (forall s,
         parse_time s = None <->
         forall v, ~ (shape_min_sec_frac (normalized s) v
                      \/ shape_sec_frac (normalized s) v
                      \/ shape_millis (normalized s) v))
  /\ parse_time (lit "abc") = None
  /\ parse_time (lit "") = None
  /\ parse_time (lit "1:2:3:4") = None
  /\ parse_time (lit "1:2.4") = Some 62400.
Proof.
  assert (Hiff : forall s v,
             parse_time s = Some v <->
             shape_min_sec_frac (normalized s) v
             \/ shape_sec_frac (normalized s) v
             \/ shape_millis (normalized s) v).
  { intros s v. split.
    - apply parse_time_inv.
    - intros [H | [H | H]].
      + apply parse_time_min_sec_frac; exact H.
      + apply parse_time_sec_frac; exact H.
      + apply parse_time_millis; exact H. }
  split; [exact Hiff |]. split; [| repeat split; reflexivity].
  intros s. split.
  - intros Hn v Hv. apply Hiff in Hv. congruence.
  - intros Hn. destruct (parse_time s) as [v |] eqn:E; [| reflexivity].
    exfalso. apply (Hn v). apply Hiff. exact E.
Qed.

(** C8.  [format_time] answers the literal "00:00.000" for every value
    [<= 0]; for every value [> 0] it answers the minutes, zero-padded to
    two digits and no further, and never truncated (100 minutes or more take
    three or more digits), a colon, the seconds 0..59 on two digits, a period and
    the millisecond remainder on three digits. *)
Theorem format_time_layout :
  (forall ms, ms <= 0 -> format_time ms = lit "00:00.000")
  /\ (forall ms, 0 < ms ->
        exists mm ss fff,
          format_time ms = mm ++ ":"%char :: ss ++ "."%char :: fff
          /\ all_digits mm /\ all_digits ss /\ all_digits fff
          /\ (2 <= length mm)%nat /\ length ss = 2%nat /\ length fff = 3%nat
          /\ int_digits mm = ms / 60000
          /\ (100 <= ms / 60000 -> (3 <= length mm)%nat)
          /\ (forall k : nat, (2 <= k)%nat -> ms / 60000 < 10 ^ Z.of_nat k ->
                              (length mm <= k)%nat)
          /\ int_digits ss = (ms mod 60000) / 1000
          /\ 0 <= int_digits ss <= 59
          /\ int_digits fff = ms mod 1000).
Proof.
  split.
  - intros ms H. unfold format_time.
    destruct (ms <=? 0) eqn:E; [reflexivity | apply Z.leb_gt in E; lia].
  - intros ms H.
    destruct (format_time_fields ms H)
      as (mm & ss & fff & E & Hm & Hs & Hf & Lm & Ls & Lf & Vm & Vs & Vf).
    destruct (time_fields ms H) as (_ & Bs & _ & _).
    destruct (time_fields ms H) as (Bm & _).
    exists mm, ss, fff.
    repeat split; auto; try lia.
    + intros Hbig. pose proof (int_digits_bound mm Hm) as Hb.
      rewrite Vm in Hb.
      destruct (length mm) as [| [| [| n]]] eqn:El; try lia; simpl in Hb; lia.
    + intros k Hk Hlt. rewrite Lm.
      pose proof (str_nat_length k (ms / 60000) (conj Bm Hlt)). lia.
Qed.

Lemma format_time_layout_witness :
  format_time 0 = lit "00:00.000"
  /\ format_time (-5) = lit "00:00.000"
  /\ format_time 6000000 = lit "100:00.000"
  /\ exists mm ss fff,
       format_time 83456 = mm ++ ":"%char :: ss ++ "."%char :: fff
       /\ int_digits mm = 1 /\ int_digits ss = 23 /\ int_digits fff = 456.
Proof.
  split; [apply (proj1 format_time_layout); lia |].
  split; [apply (proj1 format_time_layout); lia |].
  split; [reflexivity |].
  destruct (proj2 format_time_layout 83456 ltac:(lia))
    as (mm & ss & fff & E & _ & _ & _ & _ & _ & _ & Vm & _ & _ & Vs & _ & Vf).
  exists mm, ss, fff. repeat split; assumption.
Defined.

(** C9.  [parse_time] makes no check that the seconds are below 60: every
    text of the shape minutes ':' two-digit seconds in 60..99, ':' or '.',
    fraction is accepted with value minutes*60000 + seconds*1000 + padded
    fraction, and formatting that value never gives the text back. *)
Theorem parse_time_seconds_over_59 (m f : pystr) (d1 d2 sep : ascii) :
  all_digits m -> (1 <= length m)%nat ->
  is_digit d1 = true -> is_digit d2 = true ->
  60 <= int_digits [d1; d2] <= 99 ->
  sep = ":"%char \/ sep = "."%char ->
  all_digits f -> (1 <= length f <= 3)%nat ->
  let s := m ++ ":"%char :: d1 :: d2 :: sep :: f in
  let v := int_digits m * 60000 + int_digits [d1; d2] * 1000 + padded_fraction f in
  parse_time s = Some v /\ format_time v <> s.
Proof.
  intros Hm Lm H1 H2 Hsec Hsep Hf Lf s v.
  assert (Hcs : clean s).
  { unfold s. apply clean_app; [apply clean_digits; exact Hm |].
    apply clean_cons; [reflexivity | reflexivity |].
    apply clean_cons; [apply digit_not_space | apply digit_not_comma |]; auto.
    apply clean_cons; [apply digit_not_space | apply digit_not_comma |]; auto.
    apply clean_cons; [destruct Hsep; subst sep; reflexivity
                      | destruct Hsep; subst sep; reflexivity |].
    apply clean_digits; exact Hf. }
  split.
  - apply parse_time_min_sec_frac. rewrite normalized_clean by exact Hcs.
    exists m, [d1; d2], sep, f. unfold s. simpl length.
    repeat split; auto; try lia.
    constructor; [exact H1 | constructor; [exact H2 | constructor]].
  - assert (Hv : 60000 <= v).
    { pose proof (int_digits_nonneg m Hm).
      assert (0 <= padded_fraction f).
      { apply int_digits_nonneg. apply Forall_app.
        split; [exact Hf | apply all_digits_zeros]. }
      unfold v. lia. }
    destruct (format_time_fields v ltac:(lia))
      as (mm & ss & fff & E & Hmm & Hss & _ & _ & Ls & _ & _ & Vs & _).
    destruct (time_fields v ltac:(lia)) as (_ & Bs & _ & _).
    rewrite E. unfold s. intros Heq.
    apply digit_prefix_unique in Heq; [| exact Hmm | exact Hm | reflexivity | reflexivity].
    destruct Heq as [_ Heq]. injection Heq as Heq.
    destruct ss as [| a [| b [| c ss]]]; try discriminate.
    simpl in Heq. injection Heq as -> -> _.
    rewrite Vs in Hsec. lia.
Qed.

Lemma parse_time_seconds_over_59_witness :
  parse_time (lit "0:99.000") = Some 99000
  /\ format_time 99000 = lit "01:39.000"
  /\ format_time 99000 <> lit "0:99.000".
Proof.
  assert (D : forall s, forallb is_digit s = true -> all_digits s)
    by (intros s; apply all_digits_forallb).
  destruct (parse_time_seconds_over_59 (lit "0") (lit "000")
              "9"%char "9"%char "."%char) as [P F];
    try (apply D; reflexivity); try reflexivity; try (simpl; lia);
    try (right; reflexivity); try (vm_compute; split; discriminate).
  split; [exact P |]. split; [reflexivity | exact F].
Defined.

(** ** [sorted] is a stable sort *)

Section PySortedFacts.
Context {A K : Type}.
Variable ltb : K -> K -> bool.
Variable key : A -> K.

(** [a] may stand before [b]: the key of [b] is not smaller. *)
Let before (a b : A) : Prop := ltb (key b) (key a) = false.

Hypothesis ltb_asym : forall a b, ltb a b = true -> ltb b a = false.
Hypothesis not_ltb_trans :
  forall a b c, ltb b a = false -> ltb c b = false -> ltb c a = false.

Lemma insert_sorted_perm (x : A) (l : list A) :
  Permutation (x :: l) (insert_sorted ltb key x l).
Proof.
  induction l as [| y l IH]; simpl; [reflexivity |].
  destruct (ltb (key y) (key x)); [| reflexivity].
  rewrite perm_swap. constructor. exact IH.
Qed.

Lemma py_sorted_perm (l : list A) : Permutation l (py_sorted ltb key l).
Proof.
  induction l as [| x l IH]; simpl; [constructor |].
  rewrite <- insert_sorted_perm. constructor. exact IH.
Qed.

Lemma py_sorted_length (l : list A) : length (py_sorted ltb key l) = length l.
Proof. symmetry. apply Permutation_length, py_sorted_perm. Qed.

Lemma insert_sorted_sorted (x : A) (l : list A) :
  StronglySorted before l -> StronglySorted before (insert_sorted ltb key x l).
Proof.
  induction 1 as [| y l Hs IH Hy]; simpl.
  - constructor; constructor.
  - destruct (ltb (key y) (key x)) eqn:E.
    + constructor; [exact IH |].
      apply Forall_forall. intros z Hz.
      apply (Permutation_in _ (Permutation_sym (insert_sorted_perm x l))) in Hz.
      destruct Hz as [<- | Hz].
      * apply ltb_asym. exact E.
      * rewrite Forall_forall in Hy. apply Hy. exact Hz.
    + constructor; [constructor; assumption |].
      constructor; [exact E |].
      eapply Forall_impl; [| exact Hy].
      intros z Hz. unfold before in *.
      apply (not_ltb_trans _ (key y)); assumption.
Qed.

Lemma py_sorted_sorted (l : list A) : StronglySorted before (py_sorted ltb key l).
Proof.
  induction l as [| x l IH]; simpl; [constructor |].
  apply insert_sorted_sorted. exact IH.
Qed.

(** Stability: the elements of a class whose keys are never strictly
    ordered keep their input order. *)
Lemma insert_sorted_filter (f : A -> bool) (x : A) (l : list A) :
  (forall a b, f a = true -> f b = true -> ltb (key b) (key a) = false) ->
  filter f (insert_sorted ltb key x l) = filter f (x :: l).
Proof.
  intros Hf. induction l as [| y l IH]; [reflexivity |].
  cbn [insert_sorted].
  destruct (ltb (key y) (key x)) eqn:E; [| reflexivity].
  cbn [filter] in *. rewrite IH.
  destruct (f x) eqn:Ex; [| reflexivity].
  destruct (f y) eqn:Ey; [| reflexivity].
  rewrite (Hf x y Ex Ey) in E. discriminate.
Qed.

Lemma py_sorted_filter (f : A -> bool) (l : list A) :
  (forall a b, f a = true -> f b = true -> ltb (key b) (key a) = false) ->
  filter f (py_sorted ltb key l) = filter f l.
Proof.
  intros Hf. induction l as [| x l IH]; [reflexivity |].
  cbn [py_sorted fold_right]. fold (py_sorted ltb key l).
  rewrite insert_sorted_filter by exact Hf.
  cbn [filter]. rewrite IH. reflexivity.
Qed.

End PySortedFacts.

Lemma StronglySorted_weaken {A : Type} (R R' : A -> A -> Prop) (l : list A) :
  (forall a b, R a b -> R' a b) -> StronglySorted R l -> StronglySorted R' l.
Proof.
  intros HR. induction 1 as [| x l Hs IH Hx]; constructor; [exact IH |].
  eapply Forall_impl; [| exact Hx]. intros b. apply HR.
Qed.

Lemma by_time_sorted (l : list lb_entry) :
  StronglySorted (fun a b => time_ms a <= time_ms b) (py_sorted Z.ltb time_ms l).
Proof.
  eapply StronglySorted_weaken; [| apply py_sorted_sorted].
  - intros a b H. apply Z.ltb_ge in H. exact H.
  - intros a b H. apply Z.ltb_lt in H. apply Z.ltb_ge. lia.
  - intros a b c H1 H2. apply Z.ltb_ge in H1, H2. apply Z.ltb_ge. lia.
Qed.

(** ** Map leaderboard *)

Lemma collect_Forall2 {A B : Type} (f : A -> result B) (R : A -> B -> Prop)
      (xs : list A) :
  (forall x, In x xs -> exists y, f x = Ok y /\ R x y) ->
  exists ys, collect f xs = Ok ys /\ Forall2 R xs ys.
Proof.
  induction xs as [| x xs IH]; intros H.
  - exists []. split; [reflexivity | constructor].
  - destruct (H x (or_introl eq_refl)) as (y & Ey & Hy).
    destruct IH as (ys & Eys & Hys).
    { intros x' Hx'. apply H. right. exact Hx'. }
    exists (y :: ys). simpl. rewrite Ey. simpl. rewrite Eys. simpl.
    split; [reflexivity | constructor; assumption].
Qed.

Lemma entry_of_row_ok (r : time_row_joined) :
  j_players r <> None -> exists e, entry_of_row r = Ok e /\ entry_matches r e.
Proof.
  intros H. unfold entry_of_row.
  destruct (j_players r) as [name |] eqn:E; [| congruence].
  eexists. split; [reflexivity |]. repeat split. simpl. exact E.
Qed.

Lemma position_from_absent (lb : list lb_entry) (id : pystr) :
  forall i0,
    (forall e, In e lb -> discord_id e <> id) -> position_from i0 lb id = 0.
Proof.
  induction lb as [| e lb IH]; intros i0 H; simpl; [reflexivity |].
  destruct (str_eqb (discord_id e) id) eqn:E.
  - apply str_eqb_eq in E. exfalso. apply (H e); [left; reflexivity | exact E].
  - apply IH. intros e' He'. apply H. right. exact He'.
Qed.

Lemma position_from_nth (lb : list lb_entry) :
  forall i0 (i : nat) e,
    nth_error lb i = Some e ->
    (forall j e', (j < i)%nat -> nth_error lb j = Some e' ->
                  discord_id e' <> discord_id e) ->
    position_from i0 lb (discord_id e) = i0 + Z.of_nat i.
Proof.
  induction lb as [| x lb IH]; intros i0 i e Hn Hfirst.
  - destruct i; discriminate.
  - destruct i as [| i]; simpl in Hn.
    + injection Hn as ->. simpl. rewrite str_eqb_refl. lia.
    + simpl.
      destruct (str_eqb (discord_id x) (discord_id e)) eqn:E.
      * apply str_eqb_eq in E. exfalso.
        apply (Hfirst 0%nat x); [lia | reflexivity | exact E].
      * rewrite (IH (i0 + 1) i e Hn); [lia |].
        intros j e' Hj Hn'. apply (Hfirst (S j) e'); [lia | exact Hn'].
Qed.

Lemma position_from_range (lb : list lb_entry) (id : pystr) :
  forall i0, 0 < i0 ->
             position_from i0 lb id = 0
             \/ i0 <= position_from i0 lb id < i0 + Z.of_nat (length lb).
Proof.
  induction lb as [| x lb IH]; intros i0 H0; simpl; [left; reflexivity |].
  destruct (str_eqb (discord_id x) id); [right; lia |].
  destruct (IH (i0 + 1)) as [E | E]; [lia | left; exact E | right; lia].
Qed.

Lemma position_from_present (lb : list lb_entry) (id : pystr) :
  forall i0, 0 < i0 ->
             (exists e, In e lb /\ discord_id e = id) ->
             i0 <= position_from i0 lb id.
Proof.
  induction lb as [| x lb IH]; intros i0 H0 (e & He & Hid); [destruct He |].
  simpl. destruct (str_eqb (discord_id x) id) eqn:E; [lia |].
  destruct He as [-> | He].
  - apply str_eqb_neq in E. congruence.
  - assert (i0 + 1 <= position_from (i0 + 1) lb id); [| lia].
    apply IH; [lia |]. exists e. auto.
Qed.

Lemma leaderboard_of_ok (data : list time_row_joined) :
  Forall (fun r => j_players r <> None) data ->
  exists entries,
    Forall2 entry_matches data entries
    /\ leaderboard_of data = Ok (py_sorted Z.ltb time_ms entries).
Proof.
  intros H.
  destruct (collect_Forall2 entry_of_row entry_matches data) as (entries & E & F).
  { intros r Hr. apply entry_of_row_ok.
    rewrite Forall_forall in H. apply H. exact Hr. }
  exists entries. split; [exact F |].
  unfold leaderboard_of. rewrite E. reflexivity.
Qed.

(** C6.  For any sequence of time entries of one map (each joined to its
    player), the leaderboard holds every entry exactly once, in ascending
    order of [time_ms], entries with equal times in their input order; the
    rank of an entry is its 1-based position, and an identity without an
    entry has rank 0.  No entries give the empty leaderboard, not an error.
    For A = 90000, B = 85000, C = 85000 in that order the ranks are B = 1,
    C = 2, A = 3 and the gap of A to the leader is 5000 ms. *)
Theorem map_leaderboard_ranking :
  (forall data,
      Forall (fun r => j_players r <> None) data ->
      exists entries leaderboard,
        Forall2 entry_matches data entries
        /\ leaderboard_of data = Ok leaderboard
        /\ Permutation entries leaderboard
        /\ length leaderboard = length data
        /\ StronglySorted (fun a b => time_ms a <= time_ms b) leaderboard
        /\ (forall t, filter (fun e => time_ms e =? t) leaderboard
                      = filter (fun e => time_ms e =? t) entries)
        /\ (forall i e,
               nth_error leaderboard i = Some e ->
               (forall j e', (j < i)%nat -> nth_error leaderboard j = Some e' ->
                             discord_id e' <> discord_id e) ->
               position_from 1 leaderboard (discord_id e) = Z.of_nat i + 1)
        /\ (forall id,
               (forall e, In e leaderboard -> discord_id e <> id) ->
               position_from 1 leaderboard id = 0))
  /\ leaderboard_of [] = Ok []
  /\ exists leaderboard a,
       leaderboard_of example_rows = Ok leaderboard
       /\ map tm_username leaderboard = [lit "B"; lit "C"; lit "A"]
       /\ position_in leaderboard 2 = 1
       /\ position_in leaderboard 3 = 2
       /\ position_in leaderboard 1 = 3
       /\ nth_error leaderboard 2 = Some a
       /\ gap_to_leader leaderboard a = Ok 5000.
Proof.
  split; [| split; [reflexivity |]].
  - intros data H.
    destruct (leaderboard_of_ok data H) as (entries & F & E).
    exists entries, (py_sorted Z.ltb time_ms entries).
    split; [exact F |]. split; [exact E |].
    split; [apply py_sorted_perm |].
    split; [rewrite py_sorted_length; symmetry; eapply Forall2_length; exact F |].
    split; [apply by_time_sorted |].
    split.
    + intros t. apply py_sorted_filter.
      intros a b Ha Hb. apply Z.eqb_eq in Ha, Hb. apply Z.ltb_ge. lia.
    + split.
      * intros i e Hn Hfirst.
        rewrite (position_from_nth _ 1 i e Hn Hfirst). lia.
      * intros id Hid. apply position_from_absent. exact Hid.
  - eexists. eexists. split; [reflexivity |].
    repeat split; reflexivity.
Qed.

Lemma map_leaderboard_ranking_witness :
  exists entries leaderboard,
    Forall2 entry_matches example_rows entries
    /\ leaderboard_of example_rows = Ok leaderboard
    /\ Permutation entries leaderboard
    /\ length leaderboard = 3%nat
    /\ StronglySorted (fun a b => time_ms a <= time_ms b) leaderboard.
Proof.
  destruct (proj1 map_leaderboard_ranking example_rows)
    as (entries & lb & F & E & P & L & S & _).
  { repeat constructor; discriminate. }
  exists entries, lb. auto.
Defined.

(** ** Identities: [int(str(n)) = n] *)

Lemma digit_not_sign (c : ascii) :
  is_digit c = true -> Ascii.eqb c "-"%char = false /\ Ascii.eqb c "+"%char = false.
Proof. each_ascii c. Qed.

Lemma int_of_unsigned_str_nat (n sign : Z) :
  0 <= n -> int_of_unsigned (str_nat n) sign = Ok (sign * n).
Proof.
  intros Hn. unfold int_of_unsigned.
  pose proof (str_nat_nonempty n) as Hl.
  pose proof (str_nat_all_digits n Hn) as Hd.
  pose proof (str_nat_value n Hn) as Hv.
  destruct (str_nat n) as [| c d]; [simpl in Hl; lia |].
  apply all_digits_forallb in Hd. rewrite Hd, Hv. reflexivity.
Qed.

Lemma py_int_str (z : Z) : py_int (py_str z) = Ok z.
Proof.
  unfold py_str. destruct (z <? 0) eqn:E.
  - apply Z.ltb_lt in E. cbn [py_int]. rewrite Ascii.eqb_refl.
    rewrite int_of_unsigned_str_nat by lia. f_equal. lia.
  - apply Z.ltb_ge in E.
    pose proof (int_of_unsigned_str_nat z 1 E) as H.
    pose proof (str_nat_nonempty z) as Hl.
    pose proof (str_nat_all_digits z E) as Hd.
    destruct (str_nat z) as [| c d]; [simpl in Hl; lia |].
    inversion Hd as [| ? ? Hc _]; subst.
    destruct (digit_not_sign c Hc) as [H1 H2].
    cbn [py_int]. rewrite H1, H2, H. f_equal. lia.
Qed.

Lemma canonical_id_str (z : Z) : canonical_id (py_str z) = true.
Proof. unfold canonical_id. rewrite py_int_str. apply str_eqb_refl. Qed.

Lemma canonical_id_inv (id : pystr) :
  canonical_id id = true -> exists z, py_int id = Ok z /\ py_str z = id.
Proof.
  unfold canonical_id. destruct (py_int id) as [z | e]; [| discriminate].
  intros H. apply str_eqb_eq in H. exists z. auto.
Qed.

(** ** The store *)

Lemma select_player_in (st : store) (id : pystr) (p : player_row) :
  In p (select_player st id) <-> In p (players st) /\ p_discord_id p = id.
Proof.
  unfold select_player. rewrite filter_In, str_eqb_eq. reflexivity.
Qed.

Lemma registered_select (st : store) (author : Z) :
  registered st author <-> select_player st (py_str author) <> [].
Proof.
  split.
  - intros (p & Hp & Hid) E.
    assert (H : In p (select_player st (py_str author)))
      by (apply select_player_in; auto).
    rewrite E in H. destruct H.
  - intros H. destruct (select_player st (py_str author)) as [| p l] eqn:E;
      [congruence |].
    exists p. apply select_player_in. rewrite E. left. reflexivity.
Qed.

Lemma in_competition_maps_spec (m : Z) :
  in_competition_maps m = true <-> 1 <= m <= 5.
Proof.
  unfold in_competition_maps, COMPETITION_MAPS. cbn [existsb fst].
  rewrite !orb_true_iff, !Z.eqb_eq. split; [intuition lia |].
  intros H.
  assert (E : m = 1 \/ m = 2 \/ m = 3 \/ m = 4 \/ m = 5) by lia.
  intuition.
Qed.

Lemma same_time_key_spec (a b : time_row) :
  same_time_key a b = true <-> time_key a = time_key b.
Proof.
  unfold same_time_key, time_key.
  rewrite andb_true_iff, str_eqb_eq, Z.eqb_eq.
  split; [intros [-> ->]; reflexivity | intros H; injection H; auto].
Qed.

Lemma has_time_key_spec (r : time_row) (tbl : list time_row) :
  existsb (same_time_key r) tbl = true <-> In (time_key r) (map time_key tbl).
Proof.
  rewrite existsb_exists, in_map_iff. split.
  - intros (x & Hx & E). apply same_time_key_spec in E. exists x. auto.
  - intros (x & E & Hx). exists x. split; [exact Hx |].
    apply same_time_key_spec. auto.
Qed.

Lemma unique_time_keys_spec (tbl : list time_row) :
  unique_time_keys tbl = true <-> NoDup (map time_key tbl).
Proof.
  induction tbl as [| r tbl IH]; simpl.
  - split; [constructor | reflexivity].
  - rewrite andb_true_iff, negb_true_iff, IH. split.
    + intros [Hn Hd]. constructor; [| exact Hd].
      intros Hin. apply has_time_key_spec in Hin. congruence.
    + intros H. inversion H as [| ? ? Hn Hd]; subst. split; [| exact Hd].
      destruct (existsb (same_time_key r) tbl) eqn:E; [| reflexivity].
      apply has_time_key_spec in E. contradiction.
Qed.

Lemma has_player_spec (st : store) (t : time_row) :
  has_player st t = true <->
  exists p, In p (players st) /\ p_discord_id p = t_discord_id t.
Proof.
  unfold has_player.
  destruct (select_player st (t_discord_id t)) as [| p l] eqn:E.
  - split; [discriminate |]. intros (p & Hp).
    apply select_player_in in Hp. rewrite E in Hp. destruct Hp.
  - split; [| reflexivity]. intros _. exists p.
    apply select_player_in. rewrite E. left. reflexivity.
Qed.

Lemma store_wf_spec (st : store) :
  store_wf st = true <->
  (forall p, In p (players st) -> canonical_id (p_discord_id p) = true)
  /\ NoDup (map time_key (times st))
  /\ (forall t, In t (times st) ->
                exists p, In p (players st) /\ p_discord_id p = t_discord_id t).
Proof.
  unfold store_wf.
  rewrite !andb_true_iff, !forallb_forall, unique_time_keys_spec.
  split.
  - intros [[H1 H2] H3]. repeat split; auto.
    intros t Ht. apply has_player_spec. auto.
  - intros (H1 & H2 & H3). repeat split; auto.
    intros t Ht. apply has_player_spec. auto.
Qed.

Lemma upsert_time_row_in (row t : time_row) (tbl : list time_row) :
  In t (upsert_time_row row tbl) -> t = row \/ In t tbl.
Proof.
  induction tbl as [| r tbl IH]; simpl.
  - intros [<- | []]. left. reflexivity.
  - destruct (same_time_key r row).
    + intros [<- | H]; [left; reflexivity | right; right; exact H].
    + intros [<- | H]; [right; left; reflexivity |].
      destruct (IH H) as [-> | H']; [left; reflexivity | right; right; exact H'].
Qed.

Lemma upsert_time_row_has (row : time_row) (tbl : list time_row) :
  In row (upsert_time_row row tbl).
Proof.
  induction tbl as [| r tbl IH]; simpl; [left; reflexivity |].
  destruct (same_time_key r row); [left; reflexivity | right; exact IH].
Qed.

Lemma upsert_time_row_keys (row : time_row) (tbl : list time_row) :
  (In (time_key row) (map time_key tbl) ->
   map time_key (upsert_time_row row tbl) = map time_key tbl)
  /\ (~ In (time_key row) (map time_key tbl) ->
      map time_key (upsert_time_row row tbl) = map time_key tbl ++ [time_key row]).
Proof.
  induction tbl as [| r tbl [IH1 IH2]]; simpl.
  - split; [intros [] | reflexivity].
  - destruct (same_time_key r row) eqn:E.
    + apply same_time_key_spec in E. split.
      * intros _. simpl. rewrite E. reflexivity.
      * intros H. exfalso. apply H. left. exact E.
    + assert (Hne : time_key r <> time_key row).
      { intros H. apply same_time_key_spec in H. congruence. }
      split.
      * intros [H | H]; [contradiction |]. simpl. rewrite IH1; auto.
      * intros H. simpl. rewrite IH2; auto.
Qed.

Lemma upsert_time_row_unique (row : time_row) (tbl : list time_row) :
  NoDup (map time_key tbl) -> NoDup (map time_key (upsert_time_row row tbl)).
Proof.
  intros H. destruct (upsert_time_row_keys row tbl) as [K1 K2].
  destruct (existsb (same_time_key row) tbl) eqn:E.
  - apply has_time_key_spec in E. rewrite K1; assumption.
  - assert (Hn : ~ In (time_key row) (map time_key tbl)).
    { intros Hin. apply has_time_key_spec in Hin. congruence. }
    rewrite K2 by exact Hn.
    apply (Permutation_NoDup (Permutation_cons_append _ _)).
    constructor; assumption.
Qed.

Lemma upsert_player_row_in (row p : player_row) (tbl : list player_row) :
  In p (upsert_player_row row tbl) -> p = row \/ In p tbl.
Proof.
  induction tbl as [| r tbl IH]; simpl.
  - intros [<- | []]. left. reflexivity.
  - destruct (str_eqb (p_discord_id r) (p_discord_id row)).
    + intros [<- | H]; [left; reflexivity | right; right; exact H].
    + intros [<- | H]; [right; left; reflexivity |].
      destruct (IH H) as [-> | H']; [left; reflexivity | right; right; exact H'].
Qed.

Lemma upsert_player_row_keeps (row : player_row) (tbl : list player_row) (id : pystr) :
  (exists p, In p tbl /\ p_discord_id p = id) ->
  exists p, In p (upsert_player_row row tbl) /\ p_discord_id p = id.
Proof.
  induction tbl as [| r tbl IH]; intros (p & Hp & Hid); [destruct Hp |].
  simpl. destruct (str_eqb (p_discord_id r) (p_discord_id row)) eqn:E.
  - apply str_eqb_eq in E. destruct Hp as [-> | Hp].
    + exists row. split; [left; reflexivity | congruence].
    + exists p. split; [right; exact Hp | exact Hid].
  - destruct Hp as [-> | Hp].
    + exists p. split; [left; reflexivity | exact Hid].
    + destruct IH as (q & Hq & Hqid); [exists p; auto |].
      exists q. split; [right; exact Hq | exact Hqid].
Qed.

(** ** Leaderboards over the store *)

Lemma Forall2_in_l {A B : Type} (R : A -> B -> Prop) (xs : list A) (ys : list B) (x : A) :
  Forall2 R xs ys -> In x xs -> exists y, In y ys /\ R x y.
Proof.
  induction 1 as [| x' y' xs ys Hxy _ IH]; intros Hin; [destruct Hin |].
  destruct Hin as [-> | Hin].
  - exists y'. split; [left; reflexivity | exact Hxy].
  - destruct (IH Hin) as (y & Hy & Hr). exists y. split; [right; exact Hy | exact Hr].
Qed.

Lemma embed_player_some (st : store) (t : time_row) :
  (exists p, In p (players st) /\ p_discord_id p = t_discord_id t) ->
  j_players (embed_player st t) <> None.
Proof.
  intros H. apply has_player_spec in H. unfold has_player in H.
  unfold embed_player. simpl.
  destruct (select_player st (t_discord_id t)); [discriminate | discriminate].
Qed.

Lemma get_map_leaderboard_ok (st : store) (map_num : Z) :
  times_have_players st ->
  exists entries,
    Forall2 entry_matches (select_times_of_map st map_num) entries
    /\ get_map_leaderboard st map_num = Ok (py_sorted Z.ltb time_ms entries).
Proof.
  intros Hfk. apply leaderboard_of_ok.
  apply Forall_forall. intros r Hr.
  unfold select_times_of_map in Hr. apply in_map_iff in Hr.
  destruct Hr as (t & <- & Ht). apply filter_In in Ht.
  apply embed_player_some. apply Hfk. apply Ht.
Qed.

Lemma get_player_position_ok (st : store) (map_num z : Z) :
  times_have_players st ->
  exists leaderboard,
    get_map_leaderboard st map_num = Ok leaderboard
    /\ get_player_position st map_num z
       = Ok (position_from 1 leaderboard (py_str z))
    /\ 0 <= position_from 1 leaderboard (py_str z).
Proof.
  intros Hfk.
  destruct (get_map_leaderboard_ok st map_num Hfk) as (entries & _ & E).
  eexists. split; [exact E |].
  unfold get_player_position, position_in. rewrite E. split; [reflexivity |].
  destruct (position_from_range (py_sorted Z.ltb time_ms entries) (py_str z) 1)
    as [H | H]; lia.
Qed.

Lemma position_of_submitter (st : store) (map_num z : Z) (t : time_row) :
  times_have_players st ->
  In t (times st) -> t_map_number t = map_num -> t_discord_id t = py_str z ->
  exists position,
    get_player_position st map_num z = Ok position /\ 1 <= position.
Proof.
  intros Hfk Ht Hm Hid.
  destruct (get_map_leaderboard_ok st map_num Hfk) as (entries & F & E).
  exists (position_from 1 (py_sorted Z.ltb time_ms entries) (py_str z)).
  unfold get_player_position, position_in. rewrite E. split; [reflexivity |].
  apply position_from_present; [lia |].
  assert (Hr : In (embed_player st t) (select_times_of_map st map_num)).
  { unfold select_times_of_map. apply in_map. apply filter_In.
    split; [exact Ht | apply Z.eqb_eq; exact Hm]. }
  destruct (Forall2_in_l _ _ _ _ F Hr) as (e & He & (Hd & _)).
  exists e. split.
  - apply (Permutation_in _ (py_sorted_perm Z.ltb time_ms entries)). exact He.
  - rewrite Hd. simpl. exact Hid.
Qed.

Lemma upsert_time_have_players (st : store) (row : time_row) :
  times_have_players st ->
  (exists p, In p (players st) /\ p_discord_id p = t_discord_id row) ->
  times_have_players (upsert_time st row).
Proof.
  intros Hfk Hrow t Ht. simpl in Ht.
  apply upsert_time_row_in in Ht. destruct Ht as [-> | Ht].
  - exact Hrow.
  - apply Hfk. exact Ht.
Qed.

(** ** The [time] command *)

Lemma submit_time_unregistered (st : store) (author map_num : Z) (time_str : pystr) :
  ~ registered st author ->
  submit_time st author map_num time_str = (st, NotRegistered).
Proof.
  intros H. unfold submit_time.
  destruct (select_player st (py_str author)) eqn:E; [reflexivity |].
  exfalso. apply H. apply registered_select. rewrite E. discriminate.
Qed.

(** The checks of [submit_time] after the player was found, in order. *)
Lemma submit_time_registered (st : store) (author map_num : Z) (time_str : pystr) :
  registered st author ->
  exists player,
    In player (players st) /\ p_discord_id player = py_str author
    /\ submit_time st author map_num time_str
       = if negb (in_competition_maps map_num) then (st, InvalidMap)
         else match parse_time time_str with
              | None => (st, InvalidTimeFormat)
              | Some time_ms =>
                  if negb ((1000 <=? time_ms) && (time_ms <=? 600000))
                  then (st, OutOfRange)
                  else
                    let st' := upsert_time st (mk_time (py_str author) map_num time_ms) in
                    match get_player_position st' map_num author with
                    | Ok position =>
                        (st', Submitted (p_tm_username player) map_num
                                        (format_time time_ms) position
                                        (highlight_of position))
                    | Raise e => (st', SubmitFailed e)
                    end
              end.
Proof.
  intros H. apply registered_select in H. unfold submit_time.
  destruct (select_player st (py_str author)) as [| player l] eqn:E; [congruence |].
  exists player.
  assert (Hp : In player (select_player st (py_str author)))
    by (rewrite E; left; reflexivity).
  apply select_player_in in Hp. destruct Hp as [Hp Hid].
  repeat split; assumption.
Qed.

Lemma range_check_spec (t : Z) :
  negb ((1000 <=? t) && (t <=? 600000)) = false <-> 1000 <= t <= 600000.
Proof.
  rewrite negb_false_iff, andb_true_iff, !Z.leb_le. reflexivity.
Qed.

Lemma map_check_spec (m : Z) :
  negb (in_competition_maps m) = false <-> 1 <= m <= 5.
Proof. rewrite negb_false_iff. apply in_competition_maps_spec. Qed.

Lemma submit_time_store (st : store) (author map_num : Z) (time_str : pystr) :
  fst (submit_time st author map_num time_str) = st
  \/ exists t,
       parse_time time_str = Some t /\ 1000 <= t <= 600000
       /\ registered st author /\ 1 <= map_num <= 5
       /\ fst (submit_time st author map_num time_str)
          = upsert_time st (mk_time (py_str author) map_num t).
Proof.
  unfold submit_time.
  destruct (select_player st (py_str author)) as [| player l] eqn:E;
    [left; reflexivity |].
  destruct (negb (in_competition_maps map_num)) eqn:Em; [left; reflexivity |].
  destruct (parse_time time_str) as [t |] eqn:Ep; [| left; reflexivity].
  destruct (negb ((1000 <=? t) && (t <=? 600000))) eqn:Er; [left; reflexivity |].
  right. exists t.
  apply range_check_spec in Er. apply map_check_spec in Em.
  assert (Hreg : registered st author)
    by (apply registered_select; rewrite E; discriminate).
  destruct (get_player_position _ map_num author); simpl; auto 10.
Qed.

(** C4.  [submit_time] answers NotRegistered when no Player exists for the
    identity, InvalidMap when the map number is outside 1..5,
    InvalidTimeFormat when the text does not parse, OutOfRange when the
    parsed time is outside [1000, 600000]; each of these leaves the store
    as it was.  Only when all four checks pass is the time entry upserted
    and the player's rank on the map computed on the new store (in a
    well-formed store that rank exists and is at least 1). *)
Theorem submit_time_validation (st : store) (author map_num : Z) (time_str : pystr) :
  (~ registered st author ->
   submit_time st author map_num time_str = (st, NotRegistered))
  /\ (registered st author -> ~ 1 <= map_num <= 5 ->
      submit_time st author map_num time_str = (st, InvalidMap))
  /\ (registered st author -> 1 <= map_num <= 5 ->
      parse_time time_str = None ->
      submit_time st author map_num time_str = (st, InvalidTimeFormat))
  /\ (forall t,
         registered st author -> 1 <= map_num <= 5 ->
         parse_time time_str = Some t -> ~ 1000 <= t <= 600000 ->
         submit_time st author map_num time_str = (st, OutOfRange))
  /\ (forall t,
         registered st author -> 1 <= map_num <= 5 ->
         parse_time time_str = Some t -> 1000 <= t <= 600000 ->
         fst (submit_time st author map_num time_str)
         = upsert_time st (mk_time (py_str author) map_num t)
         /\ (forall position,
                get_player_position
                  (upsert_time st (mk_time (py_str author) map_num t))
                  map_num author = Ok position ->
                exists player,
                  In player (players st)
                  /\ p_discord_id player = py_str author
                  /\ snd (submit_time st author map_num time_str)
                     = Submitted (p_tm_username player) map_num (format_time t)
                                 position (highlight_of position))
         /\ (store_wf st = true ->
             exists position,
               get_player_position
                 (upsert_time st (mk_time (py_str author) map_num t))
                 map_num author = Ok position
               /\ 1 <= position))
  /\ (snd (submit_time st author map_num time_str) = NotRegistered
      \/ snd (submit_time st author map_num time_str) = InvalidMap
      \/ snd (submit_time st author map_num time_str) = InvalidTimeFormat
      \/ snd (submit_time st author map_num time_str) = OutOfRange ->
      fst (submit_time st author map_num time_str) = st).
Proof.
  split; [apply submit_time_unregistered |].
  split.
  { intros Hreg Hm.
    destruct (submit_time_registered st author map_num time_str Hreg)
      as (player & _ & _ & ->).
    destruct (negb (in_competition_maps map_num)) eqn:Em; [reflexivity |].
    apply map_check_spec in Em. contradiction. }
  split.
  { intros Hreg Hm Hp.
    destruct (submit_time_registered st author map_num time_str Hreg)
      as (player & _ & _ & ->).
    apply map_check_spec in Hm. rewrite Hm, Hp. reflexivity. }
  split.
  { intros t Hreg Hm Hp Hr.
    destruct (submit_time_registered st author map_num time_str Hreg)
      as (player & _ & _ & ->).
    apply map_check_spec in Hm. rewrite Hm, Hp.
    destruct (negb ((1000 <=? t) && (t <=? 600000))) eqn:Er; [reflexivity |].
    apply range_check_spec in Er. contradiction. }
  split.
  { intros t Hreg Hm Hp Hr.
    destruct (submit_time_registered st author map_num time_str Hreg)
      as (player & Hin & Hid & ->).
    apply map_check_spec in Hm. apply range_check_spec in Hr.
    rewrite Hm, Hp, Hr. cbv zeta.
    split; [destruct (get_player_position _ map_num author); reflexivity |].
    split.
    - intros position Hpos. exists player. rewrite Hpos. auto.
    - intros Hwf. apply store_wf_spec in Hwf. destruct Hwf as (_ & _ & Hfk).
      apply (position_of_submitter _ map_num author
                                   (mk_time (py_str author) map_num t)).
      + apply upsert_time_have_players; [exact Hfk |].
        exists player. auto.
      + simpl. apply upsert_time_row_has.
      + reflexivity.
      + reflexivity. }
  intros Hout.
  destruct (submit_time_store st author map_num time_str)
    as [H | (t & Hp & Hr & Hreg & Hm & _)]; [exact H |].
  exfalso.
  destruct (submit_time_registered st author map_num time_str Hreg)
    as (player & _ & _ & E).
  apply map_check_spec in Hm. apply range_check_spec in Hr.
  rewrite Hm, Hp, Hr in E. cbv zeta in E. rewrite E in Hout.
  destruct (get_player_position _ map_num author); simpl in Hout;
    intuition discriminate.
Qed.

Lemma one_player_registered : registered one_player 7.
Proof.
  exists (mk_player (py_str 7) (lit "Ann")). split; [left |]; reflexivity.
Qed.

Lemma submit_time_validation_witness :
  submit_time empty_store 7 1 (lit "1:00.000") = (empty_store, NotRegistered)
  /\ submit_time one_player 7 6 (lit "1:00.000") = (one_player, InvalidMap)
  /\ submit_time one_player 7 1 (lit "abc") = (one_player, InvalidTimeFormat)
  /\ submit_time one_player 7 1 (lit "999") = (one_player, OutOfRange)
  /\ submit_time one_player 7 1 (lit "600001") = (one_player, OutOfRange)
  /\ fst (submit_time one_player 7 1 (lit "1:00.000"))
     = upsert_time one_player (mk_time (py_str 7) 1 60000)
  /\ snd (submit_time one_player 7 1 (lit "1:00.000"))
     = Submitted (lit "Ann") 1 (lit "01:00.000") 1 FirstPlace.
Proof.
  pose proof one_player_registered as R.
  split.
  { apply (proj1 (submit_time_validation empty_store 7 1 (lit "1:00.000"))).
    intros (p & [] & _). }
  split.
  { apply (proj1 (proj2 (submit_time_validation one_player 7 6 (lit "1:00.000"))));
      [exact R | lia]. }
  split.
  { apply (proj1 (proj2 (proj2
             (submit_time_validation one_player 7 1 (lit "abc")))));
      [exact R | lia | reflexivity]. }
  split.
  { apply (proj1 (proj2 (proj2 (proj2
             (submit_time_validation one_player 7 1 (lit "999"))))) 999);
      [exact R | lia | reflexivity | lia]. }
  split.
  { apply (proj1 (proj2 (proj2 (proj2
             (submit_time_validation one_player 7 1 (lit "600001"))))) 600001);
      [exact R | lia | reflexivity | lia]. }
  split; [| reflexivity].
  apply (proj1 (proj2 (proj2 (proj2 (proj2
           (submit_time_validation one_player 7 1 (lit "1:00.000")))))) 60000);
    [exact R | lia | reflexivity | lia].
Defined.

(** ** Store invariants *)

Lemma exec_store (st : store) (c : command) :
  exec st c = st
  \/ (exists author name,
         exec st c = upsert_player st (mk_player (py_str author) name))
  \/ (exists author map_num t,
         1000 <= t <= 600000 /\ registered st author /\ 1 <= map_num <= 5
         /\ exec st c = upsert_time st (mk_time (py_str author) map_num t)).
Proof.
  destruct c as [author name | author map_num time_str | | m | a |]; simpl;
    try (left; reflexivity).
  - unfold register_player.
    destruct (50 <? Z.of_nat (length name)); simpl; [left; reflexivity |].
    right. left. exists author, name. reflexivity.
  - destruct (submit_time_store st author map_num time_str)
      as [H | (t & _ & Hr & Hreg & Hm & H)]; [left; exact H |].
    right. right. exists author, map_num, t. auto.
Qed.

Lemma exec_times_in_range (st : store) (c : command) :
  times_in_range st -> times_in_range (exec st c).
Proof.
  intros H.
  destruct (exec_store st c)
    as [-> | [(author & name & ->) | (author & m & t & Hr & _ & _ & ->)]];
    [exact H | exact H |].
  unfold times_in_range in *. rewrite Forall_forall in *. simpl.
  intros row Hrow. apply upsert_time_row_in in Hrow.
  destruct Hrow as [-> | Hrow]; [exact Hr | apply H; exact Hrow].
Qed.

Lemma exec_store_wf (st : store) (c : command) :
  store_wf st = true -> store_wf (exec st c) = true.
Proof.
  intros H.
  destruct (exec_store st c)
    as [-> | [(author & name & ->) | (author & m & t & _ & Hreg & _ & ->)]];
    [exact H | |];
    apply store_wf_spec in H; destruct H as (Hc & Hu & Hfk);
    apply store_wf_spec; simpl.
  - split; [| split; [exact Hu |]].
    + intros p Hp. apply upsert_player_row_in in Hp.
      destruct Hp as [-> | Hp]; [apply canonical_id_str | apply Hc; exact Hp].
    + intros row Hrow. apply upsert_player_row_keeps. apply Hfk. exact Hrow.
  - split; [exact Hc |]. split; [apply upsert_time_row_unique; exact Hu |].
    apply (upsert_time_have_players st (mk_time (py_str author) m t) Hfk).
    destruct Hreg as (p & Hp & Hid). exists p. auto.
Qed.

Lemma run_invariant (P : store -> Prop) :
  (forall st c, P st -> P (exec st c)) ->
  forall cmds st, P st -> P (run cmds st).
Proof.
  intros Hstep cmds. induction cmds as [| c cmds IH]; intros st H; simpl.
  - exact H.
  - apply IH. apply Hstep. exact H.
Qed.

Lemma run_store_wf (cmds : list command) : store_wf (run cmds empty_store) = true.
Proof.
  apply (run_invariant (fun st => store_wf st = true)); [| reflexivity].
  intros st c. apply exec_store_wf.
Qed.

(** C5.  Every time entry the bot writes lies in [1000, 600000]: a
    submission outside the range leaves the store as it was, every row a
    submission adds or replaces is in range, each command keeps the
    invariant, and so all stored times of every store reached from the
    empty one are in range. *)
Theorem stored_times_in_range :
  (forall st author map_num time_str t,
      parse_time time_str = Some t -> ~ 1000 <= t <= 600000 ->
      fst (submit_time st author map_num time_str) = st)
  /\ (forall st author map_num time_str row,
         In row (times (fst (submit_time st author map_num time_str))) ->
         In row (times st) \/ 1000 <= t_time_ms row <= 600000)
  /\ (forall st c, times_in_range st -> times_in_range (exec st c))
  /\ (forall cmds, times_in_range (run cmds empty_store)).
Proof.
  split.
  { intros st author map_num time_str t Hp Hr.
    destruct (submit_time_store st author map_num time_str)
      as [H | (t' & Hp' & Hr' & _)]; [exact H |].
    rewrite Hp in Hp'. injection Hp' as <-. contradiction. }
  split.
  { intros st author map_num time_str row Hrow.
    destruct (submit_time_store st author map_num time_str)
      as [H | (t & _ & Hr & _ & _ & H)]; rewrite H in Hrow.
    - left. exact Hrow.
    - simpl in Hrow. apply upsert_time_row_in in Hrow.
      destruct Hrow as [-> | Hrow]; [right; exact Hr | left; exact Hrow]. }
  split; [apply exec_times_in_range |].
  intros cmds. apply (run_invariant times_in_range).
  - apply exec_times_in_range.
  - constructor.
Qed.

Lemma stored_times_in_range_witness :
  submit_time one_player 7 1 (lit "999") = (one_player, OutOfRange)
  /\ submit_time one_player 7 1 (lit "600001") = (one_player, OutOfRange)
  /\ fst (submit_time one_player 7 1 (lit "999")) = one_player
  /\ times_in_range
       (run [CmdRegister 7 (lit "Ann"); CmdTime 7 1 (lit "1:00.000");
             CmdTime 7 2 (lit "0.5"); CmdTime 7 1 (lit "59.999")] empty_store).
Proof.
  split; [reflexivity |]. split; [reflexivity |].
  split.
  - apply (proj1 stored_times_in_range one_player 7 1 (lit "999") 999);
      [reflexivity | lia].
  - apply (proj2 (proj2 (proj2 stored_times_in_range))).
Defined.

(** ** Overall standings *)

Lemma points_defined (r : Z) : 0 <= r -> exists p, get_points_for_position r = Ok p.
Proof.
  intros H. destruct (Z.eq_dec r 0) as [-> | Hz]; [exists 0; reflexivity |].
  destruct (points_by_rank r ltac:(lia)) as [C | C];
    repeat (destruct C as [C | C]; [destruct C as [_ C]; eexists; exact C |]);
    destruct C as [_ C]; eexists; exact C.
Qed.

Lemma Forall2_exists {A B : Type} (R : A -> B -> Prop) (xs : list A) :
  (forall x, In x xs -> exists y, R x y) -> exists ys, Forall2 R xs ys.
Proof.
  induction xs as [| x xs IH]; intros H.
  - exists []. constructor.
  - destruct (H x (or_introl eq_refl)) as (y & Hy).
    destruct IH as (ys & Hys); [intros x' Hx'; apply H; right; exact Hx' |].
    exists (y :: ys). constructor; assumption.
Qed.

Lemma for_each_sum {A : Type} (body : Z -> A -> result Z) (xs : list A) (pts : list Z) :
  Forall2 (fun x p => forall total, body total x = Ok (total + p)) xs pts ->
  forall acc, for_each body xs acc = Ok (acc + sum_Z pts).
Proof.
  induction 1 as [| x p xs pts Hx _ IH]; intros acc; simpl.
  - f_equal. lia.
  - rewrite Hx. simpl. rewrite IH. f_equal. lia.
Qed.

Lemma maps_of_player_unique (tbl : list time_row) (id : pystr) :
  NoDup (map time_key tbl) ->
  NoDup (map t_map_number (filter (fun t => str_eqb (t_discord_id t) id) tbl)).
Proof.
  induction tbl as [| t tbl IH]; intros H; simpl; [constructor |].
  inversion H as [| ? ? Hn Hd]; subst.
  destruct (str_eqb (t_discord_id t) id) eqn:E; [| apply IH; exact Hd].
  apply str_eqb_eq in E. simpl. constructor; [| apply IH; exact Hd].
  intros Hin. apply in_map_iff in Hin. destruct Hin as (t' & Hm & Ht').
  apply filter_In in Ht'. destruct Ht' as [Ht' E'].
  apply str_eqb_eq in E'. apply Hn.
  apply in_map_iff. exists t'. split; [| exact Ht'].
  unfold time_key. congruence.
Qed.

Lemma maps_of_player_rows (st : store) (id : pystr) :
  NoDup (map time_key (times st)) ->
  maps_of_player st id = map t_map_number (select_times_of_player st id).
Proof.
  intros H. unfold maps_of_player. apply nodup_fixed_point.
  apply maps_of_player_unique. exact H.
Qed.

Lemma standing_of_ok (st : store) (player : player_row) :
  store_wf st = true -> In player (players st) ->
  exists row, standing_of st player = Ok row /\ standing_for st player row.
Proof.
  intros Hwf Hin. apply store_wf_spec in Hwf. destruct Hwf as (Hc & Hu & Hfk).
  destruct (canonical_id_inv _ (Hc player Hin)) as (z & Hz & Hid).
  set (id := p_discord_id player) in *.
  set (rows := select_times_of_player st id).
  destruct (Forall2_exists (fun te p => points_on_map st id (t_map_number te) p) rows)
    as (pts & Hpts).
  { intros te _.
    destruct (get_player_position_ok st (t_map_number te) z Hfk)
      as (lb & Elb & _ & Hpos).
    destruct (points_defined _ Hpos) as (p & Hp).
    exists p, lb. rewrite <- Hid. auto. }
  exists {| s_discord_id := id; s_tm_username := p_tm_username player;
            s_points := sum_Z pts; s_maps_completed := Z.of_nat (length rows) |}.
  split.
  - unfold standing_of. fold id. fold rows.
    rewrite (for_each_sum _ rows pts); [reflexivity |].
    eapply Forall2_impl; [| exact Hpts].
    intros te p (lb & Elb & Hp) total. rewrite Hz. simpl.
    unfold get_player_position, position_in. rewrite Elb. simpl.
    rewrite Hid, Hp. reflexivity.
  - unfold standing_for. fold id.
    rewrite (maps_of_player_rows st id Hu). fold rows. simpl.
    repeat split; [rewrite length_map; reflexivity |].
    exists pts. split; [| reflexivity].
    clear - Hpts. induction Hpts; simpl; constructor; assumption.
Qed.

Lemma tuple_ltb_spec (a b : Z * Z) :
  tuple_ltb a b = true <-> fst a < fst b \/ (fst a = fst b /\ snd a < snd b).
Proof.
  unfold tuple_ltb.
  rewrite orb_true_iff, andb_true_iff, !Z.ltb_lt, Z.eqb_eq. reflexivity.
Qed.

Lemma tuple_ltb_false (a b : Z * Z) :
  tuple_ltb a b = false <-> fst b < fst a \/ (fst a = fst b /\ snd b <= snd a).
Proof.
  destruct (tuple_ltb a b) eqn:E.
  - apply tuple_ltb_spec in E. split; [discriminate | lia].
  - split; [intros _ | reflexivity].
    assert (H : ~ (fst a < fst b \/ (fst a = fst b /\ snd a < snd b))).
    { intros H. apply tuple_ltb_spec in H. congruence. }
    lia.
Qed.

Lemma by_points_sorted (l : list standing) :
  StronglySorted standing_ge (py_sorted tuple_ltb standing_key l).
Proof.
  eapply StronglySorted_weaken; [| apply py_sorted_sorted].
  - intros a b H. apply tuple_ltb_false in H.
    unfold standing_ge, standing_key in *. simpl in H. lia.
  - intros a b H. apply tuple_ltb_spec in H. apply tuple_ltb_false. lia.
  - intros a b c H1 H2. apply tuple_ltb_false in H1, H2.
    apply tuple_ltb_false. lia.
Qed.

Lemma by_points_stable (r0 : standing) (l : list standing) :
  filter (same_rank_key r0) (py_sorted tuple_ltb standing_key l)
  = filter (same_rank_key r0) l.
Proof.
  apply py_sorted_filter. intros a b Ha Hb.
  unfold same_rank_key in *. apply andb_true_iff in Ha, Hb.
  rewrite !Z.eqb_eq in Ha, Hb.
  apply tuple_ltb_false. unfold standing_key. simpl. lia.
Qed.

(** C7.  In a well-formed store (and every store the commands reach from
    the empty one is well-formed) the overall standings hold one row per
    registered player, whose [maps_completed] is the number of maps the
    player has a time entry for and whose [points] are the sum, over those
    maps, of the points for the player's rank on the map's leaderboard; the
    rows are in descending order of points, then of maps completed, and
    rows that tie on both keep the order of the players. *)
Theorem overall_standings_spec :
  (forall st,
      store_wf st = true ->
      exists unsorted rows,
        get_overall_standings st = Ok rows
        /\ Forall2 (standing_for st) (players st) unsorted
        /\ Permutation unsorted rows
        /\ StronglySorted standing_ge rows
        /\ forall r0, filter (same_rank_key r0) rows
                      = filter (same_rank_key r0) unsorted)
  /\ (forall cmds, store_wf (run cmds empty_store) = true).
Proof.
  split; [| apply run_store_wf].
  intros st Hwf.
  destruct (collect_Forall2 (standing_of st) (standing_for st) (players st))
    as (unsorted & E & F).
  { intros p Hp. apply standing_of_ok; assumption. }
  exists unsorted, (py_sorted tuple_ltb standing_key unsorted).
  split; [unfold get_overall_standings; rewrite E; reflexivity |].
  split; [exact F |].
  split; [apply py_sorted_perm |].
  split; [apply by_points_sorted |].
  intros r0. apply by_points_stable.
Qed.

Lemma overall_standings_spec_witness :
  store_wf two_players = true
  /\ get_overall_standings two_players
     = Ok [ mk_standing (py_str 1) (lit "P") 118 5;
            mk_standing (py_str 2) (lit "Q") 25 1 ]
  /\ exists unsorted rows,
       get_overall_standings two_players = Ok rows
       /\ Forall2 (standing_for two_players) (players two_players) unsorted
       /\ Permutation unsorted rows
       /\ StronglySorted standing_ge rows
       /\ forall r0, filter (same_rank_key r0) rows = filter (same_rank_key r0) unsorted.
Proof.
  split; [reflexivity |]. split; [reflexivity |].
  apply (proj1 overall_standings_spec two_players). reflexivity.
Defined.

(** * Further properties of the code *)

(** ** [parse_time]: what it accepts and what it ignores *)

Lemma parse_time_normalized (s s' : pystr) :
  normalized s = normalized s' -> parse_time s = parse_time s'.
Proof.
  intros H. unfold parse_time.
  change (replace_comma (strip s)) with (normalized s).
  change (replace_comma (strip s')) with (normalized s').
  rewrite H. reflexivity.
Qed.

Lemma padded_fraction_nonneg (f : pystr) : all_digits f -> 0 <= padded_fraction f.
Proof.
  intros H. apply int_digits_nonneg. apply Forall_app.
  split; [exact H | apply all_digits_zeros].
Qed.

(** X1.  A parsed time is never negative. *)
Theorem parse_time_nonneg (s : pystr) (v : Z) :
  parse_time s = Some v -> 0 <= v.
Proof.
  intros H. apply parse_time_inv in H.
  destruct H as [H | [H | H]].
  - destruct H as (m & sec & sep & f & _ & Hm & _ & Hs & _ & _ & Hf & _ & ->).
    pose proof (int_digits_nonneg m Hm).
    pose proof (int_digits_nonneg sec Hs).
    pose proof (padded_fraction_nonneg f Hf). lia.
  - destruct H as (sec & f & _ & Hs & _ & Hf & _ & ->).
    pose proof (int_digits_nonneg sec Hs).
    pose proof (padded_fraction_nonneg f Hf). lia.
  - destruct H as (Hd & _ & ->). apply int_digits_nonneg. exact Hd.
Qed.

Lemma parse_time_nonneg_witness :
  parse_time (lit "0:00.000") = Some 0 /\ 0 <= 0.
Proof.
  split; [reflexivity |].
  apply (parse_time_nonneg (lit "0:00.000") 0). reflexivity.
Defined.

Lemma lstrip_spaces (ws s : pystr) : all_space ws -> lstrip (ws ++ s) = lstrip s.
Proof.
  induction 1 as [| c ws Hc _ IH]; [reflexivity |].
  simpl. rewrite Hc. exact IH.
Qed.

Lemma lstrip_all_space (ws : pystr) : all_space ws -> lstrip ws = [].
Proof.
  intros H. rewrite <- (app_nil_r ws). rewrite lstrip_spaces by exact H. reflexivity.
Qed.

Lemma rstrip_spaces (t ws : pystr) : all_space ws -> rstrip (t ++ ws) = rstrip t.
Proof.
  intros H. unfold rstrip. rewrite rev_app_distr.
  rewrite lstrip_spaces by (apply Forall_rev; exact H). reflexivity.
Qed.

Lemma strip_trailing_spaces (s ws : pystr) :
  all_space ws -> strip (s ++ ws) = strip s.
Proof.
  intros H. unfold strip. induction s as [| c s IH].
  - simpl. rewrite (lstrip_all_space ws H). reflexivity.
  - simpl. destruct (is_space c); [exact IH |].
    change (c :: s ++ ws) with ((c :: s) ++ ws). apply rstrip_spaces. exact H.
Qed.

Lemma strip_spaces (ws1 s ws2 : pystr) :
  all_space ws1 -> all_space ws2 -> strip (ws1 ++ s ++ ws2) = strip s.
Proof.
  intros H1 H2.
  transitivity (strip (s ++ ws2)).
  - unfold strip. rewrite lstrip_spaces by exact H1. reflexivity.
  - apply strip_trailing_spaces. exact H2.
Qed.

(** X2.  Whitespace around the text is ignored. *)
Theorem parse_time_whitespace (ws1 s ws2 : pystr) :
  all_space ws1 -> all_space ws2 ->
  parse_time (ws1 ++ s ++ ws2) = parse_time s.
Proof.
  intros H1 H2. apply parse_time_normalized.
  unfold normalized. rewrite strip_spaces by assumption. reflexivity.
Qed.

Lemma parse_time_whitespace_witness :
  parse_time (lit "  1:23.456 ") = Some 83456.
Proof.
  change (lit "  1:23.456 ") with (lit "  " ++ lit "1:23.456" ++ lit " ").
  rewrite (parse_time_whitespace (lit "  ") (lit "1:23.456") (lit " "));
    [reflexivity | |]; repeat constructor.
Defined.

Lemma comma_keeps_space (c : ascii) :
  is_space (if Ascii.eqb c ","%char then "."%char else c) = is_space c.
Proof.
  destruct (Ascii.eqb c ","%char) eqn:E; [| reflexivity].
  apply Ascii.eqb_eq in E. subst c. reflexivity.
Qed.

Lemma lstrip_replace_comma (s : pystr) :
  lstrip (replace_comma s) = replace_comma (lstrip s).
Proof.
  unfold replace_comma. induction s as [| c s IH]; [reflexivity |].
  simpl. rewrite comma_keeps_space. destruct (is_space c); [exact IH | reflexivity].
Qed.

Lemma strip_replace_comma (s : pystr) :
  strip (replace_comma s) = replace_comma (strip s).
Proof.
  unfold strip, rstrip. rewrite lstrip_replace_comma.
  unfold replace_comma at 1. rewrite <- map_rev.
  fold (replace_comma (rev (lstrip s))). rewrite lstrip_replace_comma.
  unfold replace_comma. rewrite map_rev. reflexivity.
Qed.

Lemma replace_comma_twice (s : pystr) :
  replace_comma (replace_comma s) = replace_comma s.
Proof.
  unfold replace_comma. rewrite map_map. apply map_ext.
  intros c. destruct (Ascii.eqb c ","%char) eqn:E; [reflexivity |].
  rewrite E. reflexivity.
Qed.

(** X3.  A comma and a period are the same separator: writing periods for
    the commas of a text does not change what it parses to. *)
Theorem parse_time_comma (s : pystr) :
  parse_time (replace_comma s) = parse_time s.
Proof.
  apply parse_time_normalized. unfold normalized.
  rewrite strip_replace_comma. apply replace_comma_twice.
Qed.

Lemma parse_time_starts_with_digit (s : pystr) (v : Z) :
  parse_time s = Some v ->
  exists c r, normalized s = c :: r /\ is_digit c = true.
Proof.
  intros H. apply parse_time_inv in H.
  assert (Hhead : forall d r, all_digits d -> (1 <= length d)%nat ->
                              exists c r', d ++ r = c :: r' /\ is_digit c = true).
  { intros d r Hd Ld. destruct d as [| c d]; [simpl in Ld; lia |].
    inversion Hd; subst. exists c, (d ++ r). auto. }
  destruct H as [H | [H | H]].
  - destruct H as (m & sec & sep & f & -> & Hm & Lm & _). apply Hhead; assumption.
  - destruct H as (sec & f & -> & Hs & Ls & _). apply Hhead; assumption.
  - destruct H as (Hd & Ld & _).
    rewrite <- (app_nil_r (normalized s)). apply Hhead; assumption.
Qed.

(** X4.  The decimal text of a non-negative integer parses to that integer
    (as milliseconds); the decimal text of a negative integer is rejected. *)
Theorem parse_time_of_int :
  (forall t, 0 <= t -> parse_time (py_str t) = Some t)
  /\ (forall t, t < 0 -> parse_time (py_str t) = None).
Proof.
  split; intros t H; unfold py_str.
  - destruct (t <? 0) eqn:E; [apply Z.ltb_lt in E; lia |].
    apply parse_time_millis.
    rewrite normalized_clean by (apply clean_digits, str_nat_all_digits; exact H).
    repeat split;
      [apply str_nat_all_digits; exact H | apply str_nat_nonempty
       | symmetry; apply str_nat_value; exact H].
  - destruct (t <? 0) eqn:E; [| apply Z.ltb_ge in E; lia].
    destruct (parse_time ("-"%char :: str_nat (- t))) as [v |] eqn:P; [| reflexivity].
    apply parse_time_starts_with_digit in P.
    destruct P as (c & r & Hn & Hc).
    rewrite normalized_clean in Hn.
    + injection Hn as <- _. discriminate.
    + apply clean_cons; [reflexivity | reflexivity |].
      apply clean_digits, str_nat_all_digits. lia.
Qed.

Lemma parse_time_of_int_witness :
  parse_time (py_str 83456) = Some 83456 /\ parse_time (py_str (-5)) = None.
Proof.
  split.
  - apply (proj1 parse_time_of_int). lia.
  - apply (proj2 parse_time_of_int). lia.
Defined.

(** X5.  Seconds with a three-digit fraction: the text of [t / 1000], a
    period and [t mod 1000] on three digits parses to [t]. *)
Theorem parse_time_of_seconds (t : Z) :
  0 <= t ->
  parse_time (py_str (t / 1000) ++ "."%char :: format_0d 3 (t mod 1000)) = Some t.
Proof.
  intros H.
  assert (Hq : 0 <= t / 1000) by (apply Z.div_pos; lia).
  pose proof (Z.mod_pos_bound t 1000 ltac:(lia)) as Hr.
  unfold py_str. destruct (t / 1000 <? 0) eqn:E; [apply Z.ltb_lt in E; lia |].
  rewrite format_0d_nonneg by lia.
  pose proof (str_nat_all_digits (t / 1000) Hq) as Ds.
  pose proof (str_nat_all_digits (t mod 1000) ltac:(lia)) as Df.
  assert (Lf : length (zero_pad 3 (str_nat (t mod 1000))) = 3%nat).
  { rewrite zero_pad_length.
    pose proof (str_nat_length 3 (t mod 1000)) as L.
    change (10 ^ Z.of_nat 3) with 1000 in L. lia. }
  apply parse_time_sec_frac.
  rewrite normalized_clean.
  - exists (str_nat (t / 1000)), (zero_pad 3 (str_nat (t mod 1000))).
    unfold padded_fraction. rewrite Lf, app_nil_r, zero_pad_value.
    rewrite !str_nat_value by lia.
    pose proof (str_nat_nonempty (t / 1000)).
    pose proof (Z.div_mod t 1000 ltac:(lia)).
    repeat split; auto; try lia.
    apply zero_pad_all_digits. exact Df.
  - apply clean_app; [apply clean_digits; exact Ds |].
    apply clean_cons; [reflexivity | reflexivity |].
    apply clean_digits, zero_pad_all_digits. exact Df.
Qed.

Lemma parse_time_of_seconds_witness :
  lit "83.456" = py_str (83456 / 1000) ++ "."%char :: format_0d 3 (83456 mod 1000)
  /\ parse_time (lit "83.456") = Some 83456.
Proof.
  split; [reflexivity |].
  apply (parse_time_of_seconds 83456). lia.
Defined.

Lemma padded_fraction_zero (f : pystr) :
  (length f <= 2)%nat -> padded_fraction (f ++ ["0"%char]) = padded_fraction f.
Proof.
  intros L. unfold padded_fraction. rewrite length_app. simpl length.
  rewrite <- app_assoc. do 2 f_equal.
  replace (3 - length f)%nat with (S (3 - (length f + 1))) by lia. reflexivity.
Qed.

(** X6.  The fraction is a decimal fraction: a zero appended to a fraction
    of one or two digits does not change the parsed time, in the
    minutes:seconds notation and in the seconds notation alike. *)
Theorem parse_time_trailing_zero (f : pystr) :
  all_digits f -> (1 <= length f <= 2)%nat ->
  (forall m sec sep,
      all_digits m -> (1 <= length m)%nat ->
      all_digits sec -> (1 <= length sec <= 2)%nat ->
      sep = ":"%char \/ sep = "."%char ->
      parse_time (m ++ ":"%char :: sec ++ sep :: f ++ ["0"%char])
      = parse_time (m ++ ":"%char :: sec ++ sep :: f))
  /\ (forall sec,
         all_digits sec -> (1 <= length sec)%nat ->
         parse_time (sec ++ "."%char :: f ++ ["0"%char])
         = parse_time (sec ++ "."%char :: f)).
Proof.
  intros Hf Lf.
  assert (Hf0 : all_digits (f ++ ["0"%char])).
  { apply Forall_app. split; [exact Hf | repeat constructor]. }
  assert (Lf0 : (1 <= length (f ++ ["0"%char]) <= 3)%nat).
  { rewrite length_app. simpl. lia. }
  assert (Csep : forall sep, sep = ":"%char \/ sep = "."%char ->
                             is_space sep = false /\ Ascii.eqb sep ","%char = false).
  { intros sep [-> | ->]; split; reflexivity. }
  split.
  - intros m sec sep Hm Lm Hs Ls Hsep.
    destruct (Csep sep Hsep) as [S1 S2].
    rewrite (parse_time_min_sec_frac _
               (int_digits m * 60000 + int_digits sec * 1000 + padded_fraction f)).
    + symmetry. apply parse_time_min_sec_frac.
      rewrite normalized_clean.
      * exists m, sec, sep, f. repeat split; auto; lia.
      * apply clean_app; [apply clean_digits; exact Hm |].
        apply clean_cons; [reflexivity | reflexivity |].
        apply clean_app; [apply clean_digits; exact Hs |].
        apply clean_cons; [exact S1 | exact S2 |].
        apply clean_digits; exact Hf.
    + rewrite normalized_clean.
      * exists m, sec, sep, (f ++ ["0"%char]).
        rewrite padded_fraction_zero by lia. repeat split; auto; lia.
      * apply clean_app; [apply clean_digits; exact Hm |].
        apply clean_cons; [reflexivity | reflexivity |].
        apply clean_app; [apply clean_digits; exact Hs |].
        apply clean_cons; [exact S1 | exact S2 |].
        apply clean_digits; exact Hf0.
  - intros sec Hs Ls.
    rewrite (parse_time_sec_frac _ (int_digits sec * 1000 + padded_fraction f)).
    + symmetry. apply parse_time_sec_frac.
      rewrite normalized_clean.
      * exists sec, f. repeat split; auto; lia.
      * apply clean_app; [apply clean_digits; exact Hs |].
        apply clean_cons; [reflexivity | reflexivity |].
        apply clean_digits; exact Hf.
    + rewrite normalized_clean.
      * exists sec, (f ++ ["0"%char]).
        rewrite padded_fraction_zero by lia. repeat split; auto; lia.
      * apply clean_app; [apply clean_digits; exact Hs |].
        apply clean_cons; [reflexivity | reflexivity |].
        apply clean_digits; exact Hf0.
Qed.

Lemma parse_time_trailing_zero_witness :
  parse_time (lit "1:23.40") = parse_time (lit "1:23.4")
  /\ parse_time (lit "83.40") = parse_time (lit "83.4")
  /\ parse_time (lit "83.4") = Some 83400.
Proof.
  assert (D : forall s, forallb is_digit s = true -> all_digits s)
    by (intros s; apply all_digits_forallb).
  destruct (parse_time_trailing_zero (lit "4")) as [H1 H2];
    [apply D; reflexivity | simpl; lia |].
  split.
  - apply (H1 (lit "1") (lit "23") "."%char);
      try (apply D; reflexivity); try (simpl; lia). right. reflexivity.
  - split; [| reflexivity].
    apply (H2 (lit "83")); [apply D; reflexivity | simpl; lia].
Defined.

(** ** [format_time]: what the text determines *)

(** X7.  Different positive times never share a text, and no positive time
    is shown as the clamp text of the values [<= 0]. *)
Theorem format_time_injective (a b : Z) :
  0 < a -> format_time a = format_time b -> a = b.
Proof.
  intros Ha E.
  assert (R : forall t, 0 < t -> parse_time (format_time t) = Some t).
  { intros t Ht. apply parse_time_min_sec_frac.
    rewrite normalized_clean by apply format_time_clean.
    apply format_time_shape. exact Ht. }
  pose proof (R a Ha) as Pa. rewrite E in Pa.
  destruct (Z_lt_le_dec 0 b) as [Hb | Hb].
  - rewrite (R b Hb) in Pa. congruence.
  - unfold format_time in Pa.
    destruct (b <=? 0) eqn:Eb; [| apply Z.leb_gt in Eb; lia].
    change (parse_time (lit "00:00.000")) with (Some 0) in Pa.
    injection Pa as Pa. lia.
Qed.

Lemma format_time_injective_witness :
  0 < 1 /\ format_time 1 <> format_time 0 /\ format_time 1 <> format_time 2.
Proof.
  split; [lia |].
  split; intros E; apply (format_time_injective 1) in E; lia.
Defined.

(** X8.  The text has at least nine characters, and exactly nine
    ([MM:SS.mmm]) for every value below 100 minutes, so for every time
    [submit_time] accepts. *)
Theorem format_time_length :
  (forall ms, (9 <= length (format_time ms))%nat)
  /\ (forall ms, ms < 6000000 -> length (format_time ms) = 9%nat).
Proof.
  assert (L : forall ms,
             (9 <= length (format_time ms))%nat
             /\ (ms < 6000000 -> length (format_time ms) = 9%nat)).
  { intros ms. destruct (Z_lt_le_dec 0 ms) as [H | H].
    - destruct (format_time_fields ms H)
        as (mm & ss & fff & -> & _ & _ & _ & Lm & Ls & Lf & _).
      rewrite length_app. simpl. rewrite length_app. simpl.
      rewrite Lm, Ls, Lf. split; [lia |].
      intros Hlt.
      assert (length (str_nat (ms / 60000)) <= 2)%nat; [| lia].
      apply str_nat_length; [| lia].
      change (10 ^ Z.of_nat 2) with 100.
      split; [apply Z.div_pos; lia | apply Z.div_lt_upper_bound; lia].
    - unfold format_time.
      destruct (ms <=? 0) eqn:E; [| apply Z.leb_gt in E; lia].
      split; [simpl; lia | reflexivity]. }
  split; intros ms; apply L.
Qed.

Lemma format_time_length_witness :
  length (format_time 600000) = 9%nat /\ length (format_time 6000000) = 10%nat.
Proof.
  split; [apply (proj2 format_time_length); lia | reflexivity].
Defined.

(** ** [get_points_for_position]: bounds and the ranks below zero *)

(** X9.  Every rank from 1 on earns between 1 and 25 points, and only the
    first rank earns 25. *)
Theorem points_of_a_rank (rank : Z) :
  1 <= rank ->
  exists p, get_points_for_position rank = Ok p
            /\ 1 <= p <= 25 /\ (p = 25 <-> rank = 1).
Proof.
  intros H.
  destruct (points_by_rank rank H) as [C | C];
    repeat (destruct C as [C | C];
            [destruct C as [E C]; eexists; split; [exact C | lia] |]);
    (destruct C as [E C]; eexists; split; [exact C | lia]).
Qed.

Lemma points_of_a_rank_witness :
  exists p, get_points_for_position 11 = Ok p /\ 1 <= p <= 25 /\ (p = 25 <-> 11 = 1).
Proof. apply (points_of_a_rank 11). lia. Defined.

(** X10.  Below zero the table is read from its end: a rank from -9 to -1
    earns what rank + 10 earns, and a rank of -10 or less raises
    [IndexError]. *)
Theorem points_of_a_negative_rank (rank : Z) :
  rank < 0 ->
  (-9 <= rank -> get_points_for_position rank = get_points_for_position (rank + 10))
  /\ (rank <= -10 -> get_points_for_position rank = Raise IndexError).
Proof.
  intros H. split.
  - intros Hlo.
    assert (E : rank = -9 \/ rank = -8 \/ rank = -7 \/ rank = -6 \/ rank = -5
                \/ rank = -4 \/ rank = -3 \/ rank = -2 \/ rank = -1) by lia.
    repeat (destruct E as [E | E]; [subst rank; reflexivity |]).
    subst rank; reflexivity.
  - intros Hhi. unfold get_points_for_position.
    destruct (rank =? 0) eqn:E0; [apply Z.eqb_eq in E0; lia |].
    destruct (rank <=? Z.of_nat (length point_values)) eqn:E1;
      [| apply Z.leb_gt in E1; simpl in E1; lia].
    unfold py_getitem.
    destruct (rank - 1 <? 0) eqn:E2; [| apply Z.ltb_ge in E2; lia].
    destruct (0 <=? rank - 1 + Z.of_nat (length point_values)) eqn:E3;
      [apply Z.leb_le in E3; simpl in E3; lia | reflexivity].
Qed.

Lemma points_of_a_negative_rank_witness :
  get_points_for_position (-9) = Ok 25
  /\ get_points_for_position (-3) = get_points_for_position 7
  /\ get_points_for_position (-42) = Raise IndexError.
Proof.
  split; [reflexivity |]. split.
  - apply (proj1 (points_of_a_negative_rank (-3) ltac:(lia))). lia.
  - apply (proj2 (points_of_a_negative_rank (-42) ltac:(lia))). lia.
Defined.

(** ** Ranks on a map *)

Lemma leaderboard_of_sorted (data : list time_row_joined) (lb : list lb_entry) :
  leaderboard_of data = Ok lb ->
  exists entries, collect entry_of_row data = Ok entries
                  /\ lb = py_sorted Z.ltb time_ms entries.
Proof.
  unfold leaderboard_of.
  destruct (collect entry_of_row data) as [entries | e]; [| discriminate].
  simpl. intros H. injection H as <-. exists entries. auto.
Qed.

Lemma py_getitem_head {A : Type} (x : A) (l : list A) : py_getitem (x :: l) 0 = Ok x.
Proof.
  unfold py_getitem. cbn [Z.ltb Z.compare length].
  replace ((0 <=? 0) && (0 <? Z.of_nat (S (length l)))) with true; [reflexivity |].
  symmetry. apply andb_true_iff. split; [reflexivity | apply Z.ltb_lt; lia].
Qed.

(** X11.  On a leaderboard the gap of an entry to the leader is never
    negative, and the leader's own gap is 0. *)
Theorem gap_to_leader_nonneg (data : list time_row_joined) (lb : list lb_entry)
        (e : lb_entry) :
  leaderboard_of data = Ok lb -> In e lb ->
  exists d, gap_to_leader lb e = Ok d /\ 0 <= d /\ (hd_error lb = Some e -> d = 0).
Proof.
  intros H Hin. apply leaderboard_of_sorted in H.
  destruct H as (entries & _ & ->).
  pose proof (by_time_sorted entries) as S.
  destruct (py_sorted Z.ltb time_ms entries) as [| leader rest]; [destruct Hin |].
  unfold gap_to_leader. rewrite py_getitem_head. simpl.
  exists (time_ms e - time_ms leader). split; [reflexivity |].
  inversion S as [| ? ? _ Hle]; subst. split.
  - destruct Hin as [-> | Hin]; [lia |].
    rewrite Forall_forall in Hle. specialize (Hle e Hin). lia.
  - intros Hh. injection Hh as ->. lia.
Qed.

Lemma gap_to_leader_nonneg_witness :
  exists d,
    gap_to_leader (py_sorted Z.ltb time_ms
                     [mk_entry (py_str 1) (lit "A") 90000;
                      mk_entry (py_str 2) (lit "B") 85000])
                  (mk_entry (py_str 1) (lit "A") 90000) = Ok d
    /\ 0 <= d.
Proof.
  destruct (gap_to_leader_nonneg
              [mk_joined (py_str 1) 90000 (Some (lit "A"));
               mk_joined (py_str 2) 85000 (Some (lit "B"))]
              (py_sorted Z.ltb time_ms
                 [mk_entry (py_str 1) (lit "A") 90000;
                  mk_entry (py_str 2) (lit "B") 85000])
              (mk_entry (py_str 1) (lit "A") 90000))
    as (d & E & Hd & _);
    [reflexivity | right; left; reflexivity |].
  exists d. auto.
Defined.

Lemma Forall2_in_r {A B : Type} (R : A -> B -> Prop) (xs : list A) (ys : list B) (y : B) :
  Forall2 R xs ys -> In y ys -> exists x, In x xs /\ R x y.
Proof.
  induction 1 as [| x' y' xs ys Hxy _ IH]; intros Hin; [destruct Hin |].
  destruct Hin as [-> | Hin].
  - exists x'. split; [left; reflexivity | exact Hxy].
  - destruct (IH Hin) as (x & Hx & Hr). exists x. split; [right; exact Hx | exact Hr].
Qed.

Lemma py_str_inj (a b : Z) : py_str a = py_str b -> a = b.
Proof.
  intros H. pose proof (py_int_str a) as Ha. rewrite H, py_int_str in Ha.
  congruence.
Qed.

(** The entries of a map's leaderboard are the rows of the map. *)
Lemma map_leaderboard_rows (st : store) (map_num : Z) :
  times_have_players st ->
  exists entries,
    get_map_leaderboard st map_num = Ok (py_sorted Z.ltb time_ms entries)
    /\ Forall2 (fun t e => discord_id e = t_discord_id t /\ time_ms e = t_time_ms t)
               (times_of_map st map_num) entries.
Proof.
  intros Hfk.
  destruct (get_map_leaderboard_ok st map_num Hfk) as (entries & F & E).
  exists entries. split; [exact E |].
  unfold select_times_of_map in F. fold (times_of_map st map_num) in F.
  remember (times_of_map st map_num) as rows eqn:Er. clear Er E.
  revert entries F. induction rows as [| t rows IH]; intros entries F.
  - inversion F; subst. constructor.
  - inversion F as [| r e rs es (Hd & _ & Ht) F']; subst.
    constructor; [| apply IH; exact F'].
    simpl in Hd, Ht. auto.
Qed.

Lemma has_time_entry (st : store) (map_num z : Z) (entries : list lb_entry) :
  Forall2 (fun t e => discord_id e = t_discord_id t /\ time_ms e = t_time_ms t)
          (times_of_map st map_num) entries ->
  has_time st z map_num <->
  exists e, In e (py_sorted Z.ltb time_ms entries) /\ discord_id e = py_str z.
Proof.
  intros F. split.
  - intros (t & Ht & Hid & Hm).
    assert (Hr : In t (times_of_map st map_num)).
    { apply filter_In. split; [exact Ht | apply Z.eqb_eq; exact Hm]. }
    destruct (Forall2_in_l _ _ _ _ F Hr) as (e & He & Hd & _).
    exists e. split; [| congruence].
    apply (Permutation_in _ (py_sorted_perm Z.ltb time_ms entries)). exact He.
  - intros (e & He & Hid).
    apply (Permutation_in _ (Permutation_sym (py_sorted_perm Z.ltb time_ms entries)))
      in He.
    destruct (Forall2_in_r _ _ _ _ F He) as (t & Ht & Hd & _).
    apply filter_In in Ht. destruct Ht as [Ht Hm]. apply Z.eqb_eq in Hm.
    exists t. repeat split; [exact Ht | congruence | exact Hm].
Qed.

(** X12.  In a well-formed store the rank lookup raises nothing; the rank
    lies between 0 and the number of entries of the map, and it is 0
    exactly when the player has no entry for the map. *)
Theorem player_position_range (st : store) (map_num z : Z) :
  store_wf st = true ->
  exists p,
    get_player_position st map_num z = Ok p
    /\ 0 <= p <= Z.of_nat (length (times_of_map st map_num))
    /\ (p = 0 <-> ~ has_time st z map_num).
Proof.
  intros Hwf. apply store_wf_spec in Hwf. destruct Hwf as (_ & _ & Hfk).
  destruct (map_leaderboard_rows st map_num Hfk) as (entries & E & F).
  pose proof (has_time_entry st map_num z entries F) as Hhas.
  set (lb := py_sorted Z.ltb time_ms entries) in *.
  exists (position_from 1 lb (py_str z)).
  unfold get_player_position, position_in. rewrite E. split; [reflexivity |].
  assert (Hlen : length lb = length (times_of_map st map_num)).
  { unfold lb. rewrite py_sorted_length. symmetry.
    eapply Forall2_length. exact F. }
  split.
  - destruct (position_from_range lb (py_str z) 1) as [H | H]; lia.
  - split.
    + intros H0 Hh. apply Hhas in Hh.
      pose proof (position_from_present lb (py_str z) 1 ltac:(lia) Hh). lia.
    + intros Hn. apply position_from_absent.
      intros e He Hid. apply Hn. apply Hhas. exists e. auto.
Qed.

Lemma player_position_range_witness :
  exists p,
    get_player_position two_players 1 2 = Ok p
    /\ 0 <= p <= Z.of_nat (length (times_of_map two_players 1))
    /\ (p = 0 <-> ~ has_time two_players 2 1).
Proof. apply (player_position_range two_players 1 2). reflexivity. Defined.

Lemma position_from_same (lb : list lb_entry) (id1 id2 : pystr) :
  forall i0, 0 < i0 ->
             position_from i0 lb id1 = position_from i0 lb id2 ->
             position_from i0 lb id1 <> 0 -> id1 = id2.
Proof.
  induction lb as [| e lb IH]; intros i0 H0 E Hnz; simpl in *; [congruence |].
  destruct (str_eqb (discord_id e) id1) eqn:E1;
    destruct (str_eqb (discord_id e) id2) eqn:E2.
  - apply str_eqb_eq in E1, E2. congruence.
  - destruct (position_from_range lb id2 (i0 + 1)) as [H | H]; lia.
  - destruct (position_from_range lb id1 (i0 + 1)) as [H | H]; lia.
  - apply (IH (i0 + 1)); [lia | exact E | exact Hnz].
Qed.

(** X13.  Two players never share a rank on a map, tied times included: a
    rank other than 0 belongs to one identity. *)
Theorem player_positions_distinct (st : store) (map_num z1 z2 p : Z) :
  get_player_position st map_num z1 = Ok p ->
  get_player_position st map_num z2 = Ok p ->
  p <> 0 -> z1 = z2.
Proof.
  unfold get_player_position, position_in.
  destruct (get_map_leaderboard st map_num) as [lb | e]; [| discriminate].
  simpl. intros H1 H2 Hp. injection H1 as H1. injection H2 as H2.
  apply py_str_inj. apply (position_from_same lb _ _ 1); [lia | congruence | lia].
Qed.

Lemma player_positions_distinct_witness :
  get_player_position two_players 1 2 = Ok 1
  /\ forall z, get_player_position two_players 1 z = Ok 1 -> z = 2.
Proof.
  split; [reflexivity |].
  intros z Hz. symmetry.
  apply (player_positions_distinct two_players 1 2 z 1);
    [reflexivity | exact Hz | lia].
Defined.

Lemma NoDup_map_nth_error {A B : Type} (f : A -> B) (l : list A) (i j : nat) (a b : A) :
  NoDup (map f l) -> nth_error l i = Some a -> nth_error l j = Some b ->
  f a = f b -> i = j.
Proof.
  intros Hnd Hi Hj Hf.
  apply (proj1 (NoDup_nth_error (map f l)) Hnd).
  - rewrite length_map. apply nth_error_Some. congruence.
  - rewrite !nth_error_map, Hi, Hj. simpl. congruence.
Qed.

Lemma StronglySorted_nth {A : Type} (R : A -> A -> Prop) (l : list A) :
  StronglySorted R l ->
  forall i j a b, (i < j)%nat -> nth_error l i = Some a -> nth_error l j = Some b ->
                  R a b.
Proof.
  induction 1 as [| x l Hs IH Hx]; intros i j a b Hij Hi Hj.
  - destruct i; discriminate.
  - destruct j as [| j]; [lia |]. simpl in Hj.
    destruct i as [| i]; simpl in Hi.
    + injection Hi as ->. rewrite Forall_forall in Hx.
      apply Hx. eapply nth_error_In. exact Hj.
    + apply (IH i j); [lia | exact Hi | exact Hj].
Qed.

Lemma times_of_map_ids_unique (tbl : list time_row) (map_num : Z) :
  NoDup (map time_key tbl) ->
  NoDup (map t_discord_id (filter (fun t => t_map_number t =? map_num) tbl)).
Proof.
  induction tbl as [| t tbl IH]; intros H; simpl; [constructor |].
  inversion H as [| ? ? Hn Hd]; subst.
  destruct (t_map_number t =? map_num) eqn:E; [| apply IH; exact Hd].
  apply Z.eqb_eq in E. simpl. constructor; [| apply IH; exact Hd].
  intros Hin. apply in_map_iff in Hin. destruct Hin as (t' & Hid & Ht').
  apply filter_In in Ht'. destruct Ht' as [Ht' E']. apply Z.eqb_eq in E'.
  apply Hn. apply in_map_iff. exists t'. split; [| exact Ht'].
  unfold time_key. congruence.
Qed.

Lemma leaderboard_ids_unique (st : store) (map_num : Z) (entries : list lb_entry) :
  NoDup (map time_key (times st)) ->
  Forall2 (fun t e => discord_id e = t_discord_id t /\ time_ms e = t_time_ms t)
          (times_of_map st map_num) entries ->
  NoDup (map discord_id (py_sorted Z.ltb time_ms entries)).
Proof.
  intros Hu F.
  apply (Permutation_NoDup
           (Permutation_map discord_id (py_sorted_perm Z.ltb time_ms entries))).
  replace (map discord_id entries) with (map t_discord_id (times_of_map st map_num)).
  - apply times_of_map_ids_unique. exact Hu.
  - clear Hu. induction F as [| t e rows es [Hd _] _ IH]; [reflexivity |].
    simpl. rewrite Hd, IH. reflexivity.
Qed.

Lemma position_of_entry (lb : list lb_entry) (e : lb_entry) (i : nat) :
  NoDup (map discord_id lb) -> nth_error lb i = Some e ->
  position_from 1 lb (discord_id e) = 1 + Z.of_nat i.
Proof.
  intros Hnd Hi. apply position_from_nth; [exact Hi |].
  intros j e' Hj Hj' Heq.
  pose proof (NoDup_map_nth_error discord_id lb j i e' e Hnd Hj' Hi Heq). lia.
Qed.

(** X14.  In a well-formed store a strictly faster time on a map has a
    strictly better (smaller) rank on that map. *)
Theorem faster_time_better_rank (st : store) (map_num za zb : Z) (ta tb : time_row) :
  store_wf st = true ->
  In ta (times st) -> In tb (times st) ->
  t_map_number ta = map_num -> t_map_number tb = map_num ->
  t_discord_id ta = py_str za -> t_discord_id tb = py_str zb ->
  t_time_ms ta < t_time_ms tb ->
  exists pa pb,
    get_player_position st map_num za = Ok pa
    /\ get_player_position st map_num zb = Ok pb
    /\ 1 <= pa < pb.
Proof.
  intros Hwf Ha Hb Hma Hmb Hia Hib Hlt.
  apply store_wf_spec in Hwf. destruct Hwf as (_ & Hu & Hfk).
  destruct (map_leaderboard_rows st map_num Hfk) as (entries & E & F).
  pose proof (leaderboard_ids_unique st map_num entries Hu F) as Hnd.
  pose proof (by_time_sorted entries) as Hs.
  pose proof (py_sorted_perm Z.ltb time_ms entries) as Hp.
  set (lb := py_sorted Z.ltb time_ms entries) in *.
  assert (Hrow : forall t, In t (times st) -> t_map_number t = map_num ->
                           exists e i, nth_error lb i = Some e
                                       /\ discord_id e = t_discord_id t
                                       /\ time_ms e = t_time_ms t).
  { intros t Ht Hm.
    assert (Hr : In t (times_of_map st map_num))
      by (apply filter_In; split; [exact Ht | apply Z.eqb_eq; exact Hm]).
    destruct (Forall2_in_l _ _ _ _ F Hr) as (e & He & Hd & Htm).
    apply (Permutation_in _ Hp) in He.
    destruct (In_nth_error _ _ He) as (i & Hi).
    exists e, i. auto. }
  destruct (Hrow ta Ha Hma) as (ea & ia & Hna & Hda & Hta).
  destruct (Hrow tb Hb Hmb) as (eb & ib & Hnb & Hdb & Htb).
  exists (1 + Z.of_nat ia), (1 + Z.of_nat ib).
  unfold get_player_position, position_in. rewrite E. cbn [bind].
  rewrite <- Hia, <- Hda, (position_of_entry lb ea ia Hnd Hna).
  rewrite <- Hib, <- Hdb, (position_of_entry lb eb ib Hnd Hnb).
  repeat split; try lia.
  destruct (Nat.lt_trichotomy ia ib) as [H | [H | H]]; [lia | |].
  - subst ib. rewrite Hna in Hnb. injection Hnb as ->. lia.
  - pose proof (StronglySorted_nth _ lb Hs ib ia eb ea H Hnb Hna) as Hle.
    simpl in Hle. lia.
Qed.

Lemma faster_time_better_rank_witness :
  exists pa pb,
    get_player_position two_players 1 2 = Ok pa
    /\ get_player_position two_players 1 1 = Ok pb
    /\ 1 <= pa < pb.
Proof.
  apply (faster_time_better_rank two_players 1 2 1
           (mk_time (py_str 2) 1 85000) (mk_time (py_str 1) 1 90000));
    try reflexivity; try lia.
  - vm_compute. tauto.
  - vm_compute. tauto.
Defined.

(** ** Registration and submission against the store *)

Lemma upsert_player_row_ids (row : player_row) (tbl : list player_row) :
  (In (p_discord_id row) (map p_discord_id tbl) ->
   map p_discord_id (upsert_player_row row tbl) = map p_discord_id tbl)
  /\ (~ In (p_discord_id row) (map p_discord_id tbl) ->
      map p_discord_id (upsert_player_row row tbl)
      = map p_discord_id tbl ++ [p_discord_id row]).
Proof.
  induction tbl as [| r tbl [IH1 IH2]]; simpl.
  - split; [intros [] | reflexivity].
  - destruct (str_eqb (p_discord_id r) (p_discord_id row)) eqn:E.
    + apply str_eqb_eq in E. split.
      * intros _. simpl. rewrite E. reflexivity.
      * intros H. exfalso. apply H. left. exact E.
    + apply str_eqb_neq in E. split.
      * intros [H | H]; [contradiction |]. simpl. rewrite IH1; auto.
      * intros H. simpl. rewrite IH2; auto.
Qed.

Lemma upsert_player_row_unique (row : player_row) (tbl : list player_row) :
  NoDup (map p_discord_id tbl) ->
  NoDup (map p_discord_id (upsert_player_row row tbl)).
Proof.
  intros H. destruct (upsert_player_row_ids row tbl) as [K1 K2].
  destruct (in_dec (list_eq_dec ascii_dec) (p_discord_id row) (map p_discord_id tbl))
    as [Hin | Hn].
  - rewrite K1; assumption.
  - rewrite K2 by exact Hn.
    apply (Permutation_NoDup (Permutation_cons_append _ _)).
    constructor; assumption.
Qed.

Lemma select_after_upsert_other (row : player_row) (tbl : list player_row) (id : pystr) :
  id <> p_discord_id row ->
  filter (fun p => str_eqb (p_discord_id p) id) (upsert_player_row row tbl)
  = filter (fun p => str_eqb (p_discord_id p) id) tbl.
Proof.
  intros Hne.
  assert (Hrow : str_eqb (p_discord_id row) id = false)
    by (apply str_eqb_neq; congruence).
  induction tbl as [| r tbl IH]; simpl.
  - rewrite Hrow. reflexivity.
  - destruct (str_eqb (p_discord_id r) (p_discord_id row)) eqn:E.
    + apply str_eqb_eq in E. simpl. rewrite Hrow, E, Hrow. reflexivity.
    + simpl. rewrite IH. reflexivity.
Qed.

Lemma filter_none {A : Type} (f : A -> bool) (l : list A) :
  (forall x, In x l -> f x = false) -> filter f l = [].
Proof.
  induction l as [| x l IH]; intros H; [reflexivity |].
  simpl. rewrite (H x (or_introl eq_refl)). apply IH.
  intros y Hy. apply H. right. exact Hy.
Qed.

Lemma select_after_upsert_same (row : player_row) (tbl : list player_row) :
  NoDup (map p_discord_id tbl) ->
  filter (fun p => str_eqb (p_discord_id p) (p_discord_id row))
         (upsert_player_row row tbl)
  = [row].
Proof.
  induction tbl as [| r tbl IH]; intros Hnd; simpl.
  - rewrite str_eqb_refl. reflexivity.
  - inversion Hnd as [| ? ? Hn Hd]; subst.
    destruct (str_eqb (p_discord_id r) (p_discord_id row)) eqn:E.
    + apply str_eqb_eq in E. simpl. rewrite str_eqb_refl. f_equal.
      apply filter_none. intros q Hq. apply str_eqb_neq. intros Hid.
      apply Hn. apply in_map_iff. exists q. split; [congruence | exact Hq].
    + simpl. rewrite E. apply IH. exact Hd.
Qed.

Lemma upsert_player_row_has (row : player_row) (tbl : list player_row) :
  In row (upsert_player_row row tbl).
Proof.
  induction tbl as [| r tbl IH]; simpl; [left; reflexivity |].
  destruct (str_eqb (p_discord_id r) (p_discord_id row));
    [left; reflexivity | right; exact IH].
Qed.

(** X15.  [register_player] rejects a name of more than 50 characters and
    writes nothing.  Otherwise it answers Registered; afterwards the player
    is registered, no time entry has changed, and where identities were
    unique they still are, the player's row carries the new name (an
    earlier name is overwritten) and every other player's row is as it
    was. *)
Theorem register_player_effect (st : store) (author : Z) (name : pystr) :
  (50 < Z.of_nat (length name) ->
   register_player st author name = (st, UsernameTooLong))
  /\ (Z.of_nat (length name) <= 50 ->
      exists st',
        register_player st author name = (st', Registered)
        /\ registered st' author
        /\ times st' = times st
        /\ (players_unique st ->
            players_unique st'
            /\ select_player st' (py_str author) = [mk_player (py_str author) name]
            /\ forall z, z <> author ->
                         select_player st' (py_str z) = select_player st (py_str z))).
Proof.
  unfold register_player. split; intros H.
  - apply Z.ltb_lt in H. rewrite H. reflexivity.
  - destruct (50 <? Z.of_nat (length name)) eqn:E; [apply Z.ltb_lt in E; lia |].
    eexists. split; [reflexivity |].
    set (row := mk_player (py_str author) name).
    split.
    { apply registered_select. unfold select_player. simpl.
      intros Hnil.
      pose proof (upsert_player_row_has row (players st)) as Hin.
      assert (Hf : In row (filter (fun p => str_eqb (p_discord_id p) (py_str author))
                                  (upsert_player_row row (players st)))).
      { apply filter_In. split; [exact Hin | apply str_eqb_refl]. }
      rewrite Hnil in Hf. exact Hf. }
    split; [reflexivity |].
    intros Hu. unfold players_unique, select_player in *. simpl.
    split; [apply upsert_player_row_unique; exact Hu |].
    split.
    + apply (select_after_upsert_same row). exact Hu.
    + intros z Hz. apply select_after_upsert_other. simpl.
      intros Heq. apply py_str_inj in Heq. contradiction.
Qed.

Lemma register_player_effect_witness :
  register_player one_player 7
                  (lit "a name that is much longer than the fifty characters allowed")
  = (one_player, UsernameTooLong)
  /\ exists st',
       register_player one_player 7 (lit "Bea") = (st', Registered)
       /\ select_player st' (py_str 7) = [mk_player (py_str 7) (lit "Bea")].
Proof.
  split.
  - apply (proj1 (register_player_effect one_player 7 _)). simpl. lia.
  - destruct (proj2 (register_player_effect one_player 7 (lit "Bea")))
      as (st' & E & _ & _ & H); [simpl; lia |].
    exists st'. split; [exact E |].
    apply H. repeat constructor. intros [].
Defined.

Lemma NoDup_map_in_eq {A B : Type} (f : A -> B) (l : list A) (a b : A) :
  NoDup (map f l) -> In a l -> In b l -> f a = f b -> a = b.
Proof.
  intros Hnd Ha Hb Hf.
  destruct (In_nth_error _ _ Ha) as (i & Hi).
  destruct (In_nth_error _ _ Hb) as (j & Hj).
  pose proof (NoDup_map_nth_error f l i j a b Hnd Hi Hj Hf) as ->.
  congruence.
Qed.

Lemma upsert_time_row_other (row t : time_row) (tbl : list time_row) :
  time_key t <> time_key row ->
  In t (upsert_time_row row tbl) <-> In t tbl.
Proof.
  intros Hne. induction tbl as [| r tbl IH]; simpl.
  - split; [intros [<- | []]; congruence | intros []].
  - destruct (same_time_key r row) eqn:E.
    + apply same_time_key_spec in E. simpl. split.
      * intros [<- | H]; [congruence | right; exact H].
      * intros [<- | H]; [congruence | right; exact H].
    + simpl. rewrite IH. reflexivity.
Qed.

(** X16.  A submission that passes the four checks leaves the players as
    they were and, where time entries were unique for their key, leaves
    exactly one entry for (player, map), holding the submitted time whatever
    the earlier one was; entries for other keys are as they were, and a
    resubmission does not add a row. *)
Theorem submit_time_overwrites (st : store) (author map_num t : Z) (time_str : pystr) :
  registered st author -> 1 <= map_num <= 5 ->
  parse_time time_str = Some t -> 1000 <= t <= 600000 ->
  NoDup (map time_key (times st)) ->
  exists st',
    fst (submit_time st author map_num time_str) = st'
    /\ players st' = players st
    /\ NoDup (map time_key (times st'))
    /\ has_time st' author map_num
    /\ (forall row, In row (times st') ->
                    time_key row = (py_str author, map_num) -> t_time_ms row = t)
    /\ (forall row, time_key row <> (py_str author, map_num) ->
                    (In row (times st') <-> In row (times st)))
    /\ (has_time st author map_num -> length (times st') = length (times st)).
Proof.
  intros Hreg Hm Hp Hr Hu.
  assert (H : fst (submit_time st author map_num time_str)
              = upsert_time st (mk_time (py_str author) map_num t)).
  { destruct (submit_time_registered st author map_num time_str Hreg)
      as (player & _ & _ & ->).
    apply map_check_spec in Hm. apply range_check_spec in Hr.
    rewrite Hm, Hp, Hr. cbv zeta.
    destruct (get_player_position _ map_num author); reflexivity. }
  set (row := mk_time (py_str author) map_num t) in *.
  exists (upsert_time st row). split; [exact H |]. simpl.
  pose proof (upsert_time_row_unique row (times st) Hu) as Hu'.
  split; [reflexivity |]. split; [exact Hu' |].
  split.
  { exists row. repeat split. apply upsert_time_row_has. }
  split.
  { intros r Hin Hk.
    assert (r = row) as ->; [| reflexivity].
    apply (NoDup_map_in_eq time_key (upsert_time_row row (times st)));
      [exact Hu' | exact Hin | apply upsert_time_row_has | exact Hk]. }
  split.
  { intros r Hk. apply upsert_time_row_other. exact Hk. }
  intros (t0 & Hin & Hid & Hmap).
  assert (Hkey : In (time_key row) (map time_key (times st))).
  { apply in_map_iff. exists t0. split; [| exact Hin].
    unfold time_key. simpl. congruence. }
  pose proof (proj1 (upsert_time_row_keys row (times st)) Hkey) as Hk.
  apply (f_equal (@length _)) in Hk. rewrite !length_map in Hk. exact Hk.
Qed.

Lemma submit_time_overwrites_witness :
  exists st',
    fst (submit_time two_players 1 1 (lit "2:00.000")) = st'
    /\ length (times st') = length (times two_players)
    /\ forall row, In row (times st') ->
                   time_key row = (py_str 1, 1) -> t_time_ms row = 120000.
Proof.
  destruct (submit_time_overwrites two_players 1 1 120000 (lit "2:00.000"))
    as (st' & E & _ & _ & _ & Hval & _ & Hlen).
  - exists (mk_player (py_str 1) (lit "P")). split; [left |]; reflexivity.
  - lia.
  - reflexivity.
  - lia.
  - apply unique_time_keys_spec. reflexivity.
  - exists st'. split; [exact E |]. split; [| exact Hval].
    apply Hlen. exists (mk_time (py_str 1) 1 90000).
    split; [left; reflexivity | split; reflexivity].
Defined.

(** ** Stores the commands reach *)

Lemma exec_players_unique (st : store) (c : command) :
  players_unique st -> players_unique (exec st c).
Proof.
  intros H.
  destruct (exec_store st c)
    as [-> | [(author & name & ->) | (author & m & t & _ & _ & _ & ->)]];
    [exact H | | exact H].
  unfold players_unique in *. simpl. apply upsert_player_row_unique. exact H.
Qed.

Lemma exec_maps_valid (st : store) (c : command) :
  maps_valid st -> maps_valid (exec st c).
Proof.
  intros H.
  destruct (exec_store st c)
    as [-> | [(author & name & ->) | (author & m & t & _ & _ & Hm & ->)]];
    [exact H | exact H |].
  unfold maps_valid in *. rewrite Forall_forall in *. simpl.
  intros row Hrow. apply upsert_time_row_in in Hrow.
  destruct Hrow as [-> | Hrow]; [exact Hm | apply H; exact Hrow].
Qed.

Lemma maps_of_player_bound (st : store) (id : pystr) :
  NoDup (map time_key (times st)) -> maps_valid st ->
  (length (select_times_of_player st id) <= 5)%nat.
Proof.
  intros Hu Hv.
  rewrite <- (length_map t_map_number).
  change 5%nat with (length [1; 2; 3; 4; 5]).
  apply NoDup_incl_length.
  - apply maps_of_player_unique. exact Hu.
  - intros m Hm. apply in_map_iff in Hm. destruct Hm as (t & <- & Ht).
    apply filter_In in Ht. destruct Ht as [Ht _].
    unfold maps_valid in Hv. rewrite Forall_forall in Hv.
    specialize (Hv t Ht). simpl.
    assert (E : t_map_number t = 1 \/ t_map_number t = 2 \/ t_map_number t = 3
                \/ t_map_number t = 4 \/ t_map_number t = 5) by lia.
    intuition.
Qed.

(** X17.  In every store the commands reach from the empty one there is
    one row per identity, every time entry is for a map 1..5 and belongs to
    a registered player, and no player has more than five time entries. *)
Theorem reachable_store_shape (cmds : list command) :
  players_unique (run cmds empty_store)
  /\ maps_valid (run cmds empty_store)
  /\ times_have_players (run cmds empty_store)
  /\ forall id, (length (select_times_of_player (run cmds empty_store) id) <= 5)%nat.
Proof.
  assert (Hp : players_unique (run cmds empty_store)).
  { apply (run_invariant players_unique); [apply exec_players_unique | constructor]. }
  assert (Hv : maps_valid (run cmds empty_store)).
  { apply (run_invariant maps_valid); [apply exec_maps_valid | constructor]. }
  pose proof (run_store_wf cmds) as Hwf. apply store_wf_spec in Hwf.
  destruct Hwf as (_ & Hu & Hfk).
  repeat split; try assumption.
  intros id. apply maps_of_player_bound; assumption.
Qed.

(** ** Bounds on the standings *)

Lemma collect_inv {A B : Type} (f : A -> result B) (xs : list A) :
  forall ys, collect f xs = Ok ys -> Forall2 (fun x y => f x = Ok y) xs ys.
Proof.
  induction xs as [| x xs IH]; intros ys H; simpl in H.
  - injection H as <-. constructor.
  - destruct (f x) as [y | e] eqn:Ex; [| discriminate]. simpl in H.
    destruct (collect f xs) as [ys' | e] eqn:Exs; [| discriminate]. simpl in H.
    injection H as <-. constructor; [exact Ex | apply IH; reflexivity].
Qed.

Lemma points_in_range (r : Z) :
  1 <= r -> exists p, get_points_for_position r = Ok p /\ 1 <= p <= 25.
Proof.
  intros H.
  destruct (points_by_rank r H) as [C | C];
    repeat (destruct C as [C | C];
            [destruct C as [_ C]; eexists; split; [exact C | lia] |]);
    (destruct C as [_ C]; eexists; split; [exact C | lia]).
Qed.

Lemma sum_Z_bounds (pts : list Z) :
  Forall (fun p => 1 <= p <= 25) pts ->
  Z.of_nat (length pts) <= sum_Z pts <= 25 * Z.of_nat (length pts).
Proof.
  induction 1 as [| p pts Hp _ IH]; simpl length; simpl sum_Z; [lia |].
  rewrite Nat2Z.inj_succ. lia.
Qed.

Lemma points_on_map_range (st : store) (t : time_row) (pt : Z) :
  times_have_players st -> In t (times st) ->
  points_on_map st (t_discord_id t) (t_map_number t) pt -> 1 <= pt <= 25.
Proof.
  intros Hfk Ht (lb & Elb & Hpt).
  destruct (map_leaderboard_rows st (t_map_number t) Hfk) as (entries & E & F).
  rewrite E in Elb. injection Elb as <-.
  assert (Hr : In t (times_of_map st (t_map_number t)))
    by (apply filter_In; split; [exact Ht | apply Z.eqb_refl]).
  destruct (Forall2_in_l _ _ _ _ F Hr) as (e & He & Hd & _).
  assert (Hpos : 1 <= position_from 1 (py_sorted Z.ltb time_ms entries) (t_discord_id t)).
  { apply position_from_present; [lia |]. exists e. split; [| exact Hd].
    apply (Permutation_in _ (py_sorted_perm Z.ltb time_ms entries)). exact He. }
  destruct (points_in_range _ Hpos) as (p & Ep & Hp).
  rewrite Ep in Hpt. injection Hpt as <-. exact Hp.
Qed.

Lemma standing_row_bounds (st : store) (player : player_row) (r : standing) :
  store_wf st = true -> In player (players st) ->
  standing_of st player = Ok r ->
  s_maps_completed r
  = Z.of_nat (length (select_times_of_player st (p_discord_id player)))
  /\ s_maps_completed r <= s_points r <= 25 * s_maps_completed r.
Proof.
  intros Hwf Hin Hr.
  destruct (standing_of_ok st player Hwf Hin) as (r' & Hr' & Hfor).
  rewrite Hr in Hr'. injection Hr' as <-.
  apply store_wf_spec in Hwf. destruct Hwf as (_ & Hu & Hfk).
  destruct Hfor as (_ & _ & Hmaps & pts & Hpts & Hsum).
  rewrite (maps_of_player_rows st _ Hu) in Hmaps, Hpts.
  rewrite length_map in Hmaps. split; [exact Hmaps |].
  assert (Hall : Forall (fun p => 1 <= p <= 25) pts).
  { remember (select_times_of_player st (p_discord_id player)) as rows eqn:Er.
    assert (Hrows : forall t, In t rows ->
                              In t (times st) /\ t_discord_id t = p_discord_id player).
    { intros t Ht. rewrite Er in Ht. apply filter_In in Ht.
      destruct Ht as [Ht Hid]. apply str_eqb_eq in Hid. auto. }
    clear Er Hmaps Hsum. revert pts Hpts.
    induction rows as [| t rows IH]; intros pts Hpts; simpl in Hpts.
    - inversion Hpts; subst. constructor.
    - inversion Hpts as [| m pt ms pts' Hpt Hpts']; subst.
      constructor.
      + destruct (Hrows t (or_introl eq_refl)) as [Ht Hid].
        apply (points_on_map_range st t pt Hfk Ht). rewrite Hid. exact Hpt.
      + apply IH; [| exact Hpts'].
        intros t' Ht'. apply Hrows. right. exact Ht'. }
  pose proof (sum_Z_bounds pts Hall) as Hb.
  assert (Hlen : length pts = length (select_times_of_player st (p_discord_id player))).
  { apply Forall2_length in Hpts. rewrite length_map in Hpts. lia. }
  rewrite Hsum, Hmaps, <- Hlen. exact Hb.
Qed.

Lemma standings_rows (st : store) (rows : list standing) :
  get_overall_standings st = Ok rows ->
  length rows = length (players st)
  /\ forall r, In r rows ->
               exists player, In player (players st) /\ standing_of st player = Ok r.
Proof.
  unfold get_overall_standings.
  destruct (collect (standing_of st) (players st)) as [unsorted |] eqn:E;
    [| discriminate].
  simpl. intros H. injection H as <-.
  apply collect_inv in E. split.
  - rewrite py_sorted_length. symmetry. eapply Forall2_length. exact E.
  - intros r Hr.
    apply (Permutation_in _ (Permutation_sym
                               (py_sorted_perm tuple_ltb standing_key unsorted))) in Hr.
    destruct (Forall2_in_r _ _ _ _ E Hr) as (player & Hp & Hs).
    exists player. auto.
Qed.

(** X18.  In a well-formed store the standings have one row per player
    row, and every row has between 1 and 25 points per completed map:
    [maps_completed <= points <= 25 * maps_completed], so a player without
    times has 0 points.  In a store the commands reach, no row has more
    than 5 maps or more than 125 points. *)
Theorem standings_bounds :
  (forall st rows,
      store_wf st = true -> get_overall_standings st = Ok rows ->
      length rows = length (players st)
      /\ Forall (fun r => 0 <= s_maps_completed r
                          /\ s_maps_completed r <= s_points r
                          /\ s_points r <= 25 * s_maps_completed r) rows)
  /\ (forall cmds rows,
         get_overall_standings (run cmds empty_store) = Ok rows ->
         Forall (fun r => s_maps_completed r <= 5 /\ s_points r <= 125) rows).
Proof.
  split.
  - intros st rows Hwf H. apply standings_rows in H. destruct H as [Hlen Hrows].
    split; [exact Hlen |].
    apply Forall_forall. intros r Hr.
    destruct (Hrows r Hr) as (player & Hp & Hs).
    destruct (standing_row_bounds st player r Hwf Hp Hs) as [Hm Hb]. lia.
  - intros cmds rows H. apply standings_rows in H. destruct H as [_ Hrows].
    apply Forall_forall. intros r Hr.
    destruct (Hrows r Hr) as (player & Hp & Hs).
    pose proof (run_store_wf cmds) as Hwf.
    destruct (standing_row_bounds _ player r Hwf Hp Hs) as [Hm Hb].
    assert (Hmax : (length (select_times_of_player (run cmds empty_store)
                                                   (p_discord_id player)) <= 5)%nat).
    { apply maps_of_player_bound.
      - apply store_wf_spec in Hwf. apply Hwf.
      - apply (run_invariant maps_valid); [apply exec_maps_valid | constructor]. }
    lia.
Qed.

Lemma standings_bounds_witness :
  exists rows,
    get_overall_standings two_players = Ok rows
    /\ length rows = 2%nat
    /\ Forall (fun r => s_maps_completed r <= 5 /\ s_points r <= 125) rows.
Proof.
  eexists. split; [reflexivity |]. split; [reflexivity |].
  apply (proj2 standings_bounds
           [ CmdRegister 1 (lit "P"); CmdRegister 2 (lit "Q");
             CmdTime 1 1 (lit "1:30.000"); CmdTime 1 2 (lit "1:31.000");
             CmdTime 1 3 (lit "1:32.000"); CmdTime 1 4 (lit "1:33.000");
             CmdTime 1 5 (lit "1:34.000"); CmdTime 2 1 (lit "1:25.000") ]).
  reflexivity.
Defined.

(** ** Personal statistics against the standings *)

Lemma map_points_ok (st : store) (author map_num : Z) :
  times_have_players st ->
  exists position,
    get_player_position st map_num author = Ok position
    /\ get_points_for_position position = Ok (map_points st author map_num).
Proof.
  intros Hfk.
  destruct (get_player_position_ok st map_num author Hfk) as (lb & _ & E & Hpos).
  destruct (points_defined _ Hpos) as (p & Hp).
  eexists. split; [exact E |].
  unfold map_points. rewrite E, Hp. reflexivity.
Qed.

Lemma points_on_map_value (st : store) (author map_num pt : Z) :
  points_on_map st (py_str author) map_num pt -> pt = map_points st author map_num.
Proof.
  intros (lb & Elb & Hpt). unfold map_points, get_player_position, position_in.
  rewrite Elb. simpl. rewrite Hpt. reflexivity.
Qed.

Lemma sum_Z_cons (x : Z) (l : list Z) : sum_Z (x :: l) = x + sum_Z l.
Proof. reflexivity. Qed.

Lemma stats_loop (st : store) (author : Z) (rows : list time_row) :
  times_have_players st ->
  forall kvs total fields,
  exists fields',
    for_each (stats_step st author rows) kvs (total, fields)
    = Ok (total
          + sum_Z (map (fun m => if existsb (fun t => t_map_number t =? m) rows
                                 then map_points st author m else 0)
                       (map fst kvs)),
          fields')
    /\ length fields' = (length fields + length kvs)%nat.
Proof.
  intros Hfk. induction kvs as [| [m name] kvs IH]; intros total fields.
  - exists fields. simpl. split; [f_equal; f_equal; lia | lia].
  - cbn [for_each stats_step map fst]. rewrite sum_Z_cons.
    destruct (find (fun t => t_map_number t =? m) rows) as [t |] eqn:Ef.
    + assert (Hex : existsb (fun t => t_map_number t =? m) rows = true).
      { apply find_some in Ef. apply existsb_exists. exists t. exact Ef. }
      rewrite Hex.
      destruct (map_points_ok st author m Hfk) as (pos & Epos & Ept).
      rewrite Epos. cbn [bind]. rewrite Ept. cbn [bind].
      destruct (IH (total + map_points st author m)
                   (fields ++ [MapTime name (format_time (t_time_ms t)) pos
                                       (map_points st author m)]))
        as (fields' & E & L).
      exists fields'. rewrite E. split; [f_equal; f_equal; lia |].
      rewrite L, length_app. simpl. lia.
    + assert (Hex : existsb (fun t => t_map_number t =? m) rows = false).
      { destruct (existsb (fun t => t_map_number t =? m) rows) eqn:Ex; [| reflexivity].
        apply existsb_exists in Ex. destruct Ex as (t & Ht & Hm).
        pose proof (find_none _ _ Ef t Ht) as Hn. simpl in Hn. congruence. }
      rewrite Hex. cbn [bind].
      destruct (IH total (fields ++ [MapNoTime name])) as (fields' & E & L).
      exists fields'. rewrite E. split; [f_equal; f_equal; lia |].
      rewrite L, length_app. simpl. lia.
Qed.

Lemma sum_Z_filter (c : Z -> bool) (f : Z -> Z) (l : list Z) :
  sum_Z (map (fun m => if c m then f m else 0) l) = sum_Z (map f (filter c l)).
Proof.
  induction l as [| m l IH]; [reflexivity |].
  simpl. destruct (c m); simpl; rewrite IH; lia.
Qed.

Lemma sum_Z_perm (l l' : list Z) : Permutation l l' -> sum_Z l = sum_Z l'.
Proof.
  induction 1; simpl; lia.
Qed.

Lemma maps_of_player_perm (st : store) (id : pystr) :
  maps_valid st ->
  Permutation
    (filter (fun m => existsb (fun t => t_map_number t =? m)
                              (select_times_of_player st id))
            (map fst COMPETITION_MAPS))
    (maps_of_player st id).
Proof.
  intros Hv. apply NoDup_Permutation.
  - apply NoDup_filter. repeat constructor; simpl; intuition discriminate.
  - apply NoDup_nodup.
  - intros m. unfold maps_of_player.
    rewrite filter_In, nodup_In, existsb_exists. split.
    + intros (_ & t & Ht & Hm). apply Z.eqb_eq in Hm.
      apply in_map_iff. exists t. auto.
    + intros Hin. apply in_map_iff in Hin. destruct Hin as (t & Hm & Ht). split.
      * assert (Hin : In t (times st)) by (apply filter_In in Ht; apply Ht).
        unfold maps_valid in Hv. rewrite Forall_forall in Hv.
        specialize (Hv t Hin). simpl.
        assert (E : m = 1 \/ m = 2 \/ m = 3 \/ m = 4 \/ m = 5) by lia.
        intuition.
      * exists t. split; [exact Ht | apply Z.eqb_eq; exact Hm].
Qed.

Lemma get_overall_standings_ok (st : store) :
  store_wf st = true ->
  exists unsorted,
    Forall2 (standing_for st) (players st) unsorted
    /\ get_overall_standings st = Ok (py_sorted tuple_ltb standing_key unsorted).
Proof.
  intros Hwf.
  destruct (collect_Forall2 (standing_of st) (standing_for st) (players st))
    as (unsorted & E & F).
  { intros p Hp. apply standing_of_ok; assumption. }
  exists unsorted. split; [exact F |].
  unfold get_overall_standings. rewrite E. reflexivity.
Qed.

Lemma standing_points_value (st : store) (author : Z) (player : player_row) (r : standing) :
  p_discord_id player = py_str author ->
  standing_for st player r ->
  s_points r = sum_Z (map (map_points st author) (maps_of_player st (py_str author))).
Proof.
  intros Hid (_ & _ & _ & pts & Hpts & ->). rewrite Hid in Hpts.
  f_equal.
  induction Hpts as [| m pt ms pts Hpt _ IH]; [reflexivity |].
  simpl. rewrite (points_on_map_value st author m pt Hpt), IH. reflexivity.
Qed.

(** X19.  In a well-formed store whose time entries are for the maps 1..5
    (every store the commands reach), the personal statistics of a
    registered player list the five maps, and their total is the points of
    the player's row in the overall standings. *)
Theorem my_stats_total (st : store) (author : Z) :
  store_wf st = true -> maps_valid st -> registered st author ->
  exists name fields total rows,
    show_my_stats st author = Stats name fields total
    /\ length fields = 5%nat
    /\ get_overall_standings st = Ok rows
    /\ (exists r, In r rows /\ s_discord_id r = py_str author)
    /\ (forall r, In r rows -> s_discord_id r = py_str author -> s_points r = total).
Proof.
  intros Hwf Hv Hreg.
  destruct (get_overall_standings_ok st Hwf) as (unsorted & F & E).
  apply store_wf_spec in Hwf. destruct Hwf as (_ & _ & Hfk).
  pose proof Hreg as Hsel. apply registered_select in Hsel.
  unfold show_my_stats.
  destruct (select_player st (py_str author)) as [| player l] eqn:Es; [congruence |].
  destruct (stats_loop st author (select_times_of_player st (py_str author)) Hfk
                       COMPETITION_MAPS 0 [])
    as (fields & El & Ll).
  rewrite El.
  rewrite sum_Z_filter in *.
  rewrite (sum_Z_perm _ _ (Permutation_map _ (maps_of_player_perm st (py_str author) Hv))).
  eexists. eexists. eexists. eexists.
  split; [reflexivity |].
  split; [exact Ll |].
  split; [exact E |].
  pose proof (py_sorted_perm tuple_ltb standing_key unsorted) as Hp.
  split.
  - destruct Hreg as (p & Hpin & Hpid).
    destruct (Forall2_in_l _ _ _ _ F Hpin) as (r & Hr & (Hid & _)).
    exists r. split; [apply (Permutation_in _ Hp); exact Hr | congruence].
  - intros r Hr Hid.
    apply (Permutation_in _ (Permutation_sym Hp)) in Hr.
    destruct (Forall2_in_r _ _ _ _ F Hr) as (p & Hpin & Hfor).
    assert (Hpid : p_discord_id p = py_str author).
    { destruct Hfor as (Hd & _). congruence. }
    rewrite (standing_points_value st author p r Hpid Hfor). lia.
Qed.

Lemma my_stats_total_witness :
  exists name fields,
    show_my_stats two_players 1 = Stats name fields 118
    /\ length fields = 5%nat
    /\ exists total rows,
         get_overall_standings two_players = Ok rows
         /\ (forall r, In r rows -> s_discord_id r = py_str 1 -> s_points r = total)
         /\ total = 118.
Proof.
  destruct (my_stats_total two_players 1)
    as (name & fields & total & rows & Es & Lf & Er & _ & Hr).
  - reflexivity.
  - repeat constructor; simpl; lia.
  - exists (mk_player (py_str 1) (lit "P")). split; [left |]; reflexivity.
  - assert (Ht : total = 118).
    { assert (H : show_my_stats two_players 1
                  = Stats (lit "P")
                          [MapTime (lit "ZOOP 01") (lit "01:30.000") 2 18;
                           MapTime (lit "Dirty Swervy 02") (lit "01:31.000") 1 25;
                           MapTime (lit "Cold and Mad 03") (lit "01:32.000") 1 25;
                           MapTime (lit "Grassy Guy 04") (lit "01:33.000") 1 25;
                           MapTime (lit "Cold and Mad Pt 2 05") (lit "01:34.000") 1 25]
                          118) by reflexivity.
      rewrite H in Es. injection Es as _ _ <-. reflexivity. }
    subst total.
    exists name, fields. split; [exact Es |]. split; [exact Lf |].
    exists 118, rows. auto.
Defined.

(** ** The map view *)

Lemma map_name_valid (map_num : Z) :
  1 <= map_num <= 5 -> exists name, map_name map_num = Some name.
Proof.
  intros H.
  assert (E : map_num = 1 \/ map_num = 2 \/ map_num = 3 \/ map_num = 4 \/ map_num = 5)
    by lia.
  repeat (destruct E as [E | E]; [subst map_num; eexists; reflexivity |]).
  subst map_num; eexists; reflexivity.
Qed.

Lemma board_fields (leader : lb_entry) (rest : list lb_entry) :
  forall (shown : list lb_entry) (i : Z),
  exists fields,
    collect (board_field_of (leader :: rest)) (enumerate_from i shown) = Ok fields
    /\ length fields = length shown
    /\ forall k f,
         nth_error fields k = Some f ->
         exists e,
           nth_error shown k = Some e
           /\ f_rank f = i + Z.of_nat k
           /\ f_username f = tm_username e
           /\ f_time f = format_time (time_ms e)
           /\ f_split f = if i + Z.of_nat k =? 1 then None
                          else Some (format_time (time_ms e - time_ms leader)).
Proof.
  induction shown as [| e shown IH]; intros i.
  - exists []. repeat split. intros [| k] f H; discriminate.
  - destruct (IH (i + 1)) as (fields & E & L & Hf).
    cbn [enumerate_from collect board_field_of].
    assert (Hhead : exists f0,
               (if i =? 1
                then Ok {| f_rank := i; f_username := tm_username e;
                           f_time := format_time (time_ms e); f_split := None |}
                else diff <- gap_to_leader (leader :: rest) e ;;
                     Ok {| f_rank := i; f_username := tm_username e;
                           f_time := format_time (time_ms e);
                           f_split := Some (format_time diff) |}) = Ok f0
               /\ f_rank f0 = i /\ f_username f0 = tm_username e
               /\ f_time f0 = format_time (time_ms e)
               /\ f_split f0 = if i =? 1 then None
                               else Some (format_time (time_ms e - time_ms leader))).
    { destruct (i =? 1); [eexists; split; [reflexivity | auto] |].
      unfold gap_to_leader. rewrite py_getitem_head. cbn [bind].
      eexists. split; [reflexivity | auto]. }
    destruct Hhead as (f0 & E0 & H0).
    rewrite E0. cbn [bind]. rewrite E. cbn [bind].
    exists (f0 :: fields). split; [reflexivity |].
    split; [simpl; rewrite L; reflexivity |].
    intros [| k] f Hk; simpl in Hk.
    + injection Hk as <-. exists e. rewrite Z.add_0_r. simpl. tauto.
    + destruct (Hf k f Hk) as (e' & He' & Hr & Hu & Ht & Hs).
      exists e'. simpl nth_error.
      replace (i + Z.of_nat (S k)) with (i + 1 + Z.of_nat k) by lia. tauto.
Qed.

(** X20.  [show_map_leaderboard] answers InvalidMap outside 1..5.  In a
    well-formed store it raises nothing for a map 1..5: without entries it
    says so; otherwise it lists the first [min 10 n] entries of the
    leaderboard in order, the [k]-th with rank [k], which is the rank
    [get_player_position] gives that player, with its formatted time and,
    from the second row on, the formatted non-negative gap to the leader. *)
Theorem map_view_rows (st : store) (map_num : Z) :
  (~ 1 <= map_num <= 5 -> show_map_leaderboard st map_num = ViewInvalidMap)
  /\ (store_wf st = true -> 1 <= map_num <= 5 ->
      exists name lb,
        map_name map_num = Some name
        /\ get_map_leaderboard st map_num = Ok lb
        /\ length lb = length (times_of_map st map_num)
        /\ (lb = [] -> show_map_leaderboard st map_num = ViewNoTimes name)
        /\ (lb <> [] ->
            exists fields,
              show_map_leaderboard st map_num = ViewBoard name fields
              /\ length fields = Nat.min 10 (length lb)
              /\ forall k f,
                   nth_error fields k = Some f ->
                   exists e,
                     nth_error lb k = Some e
                     /\ f_rank f = Z.of_nat k + 1
                     /\ position_from 1 lb (discord_id e) = f_rank f
                     /\ f_username f = tm_username e
                     /\ f_time f = format_time (time_ms e)
                     /\ (k = 0%nat -> f_split f = None)
                     /\ (k <> 0%nat ->
                         exists d, 0 <= d /\ gap_to_leader lb e = Ok d
                                   /\ f_split f = Some (format_time d)))).
Proof.
  split.
  - intros H. unfold show_map_leaderboard.
    destruct (negb (in_competition_maps map_num)) eqn:E; [reflexivity |].
    apply map_check_spec in E. contradiction.
  - intros Hwf Hm. apply store_wf_spec in Hwf. destruct Hwf as (_ & Hu & Hfk).
    destruct (map_name_valid map_num Hm) as (name & En).
    destruct (map_leaderboard_rows st map_num Hfk) as (entries & E & F).
    pose proof (leaderboard_ids_unique st map_num entries Hu F) as Hnd.
    pose proof (by_time_sorted entries) as Hs.
    assert (Hlen : length (py_sorted Z.ltb time_ms entries)
                   = length (times_of_map st map_num)).
    { rewrite py_sorted_length. symmetry. eapply Forall2_length. exact F. }
    set (lb := py_sorted Z.ltb time_ms entries) in *.
    exists name, lb. split; [exact En |]. split; [exact E |]. split; [exact Hlen |].
    unfold show_map_leaderboard. apply map_check_spec in Hm. rewrite Hm, E, En.
    split; [intros ->; reflexivity |].
    intros Hne. destruct lb as [| leader rest] eqn:Elb; [congruence |].
    destruct (board_fields leader rest (firstn 10 (leader :: rest)) 1)
      as (fields & Ec & Lf & Hf).
    rewrite Ec. exists fields. split; [reflexivity |].
    split; [rewrite Lf; apply length_firstn |].
    intros k f Hk. destruct (Hf k f Hk) as (e & He & Hr & Hun & Ht & Hsp).
    assert (Hk10 : (k < 10)%nat).
    { assert (k < length (firstn 10 (leader :: rest)))%nat
        by (apply nth_error_Some; congruence).
      rewrite length_firstn in H. lia. }
    rewrite nth_error_firstn in He.
    destruct (k <? 10)%nat eqn:Ek; [| apply Nat.ltb_ge in Ek; lia].
    exists e. split; [exact He |]. split; [lia |].
    split; [rewrite (position_of_entry _ e k Hnd He); lia |].
    split; [exact Hun |]. split; [exact Ht |].
    split.
    + intros ->. rewrite Hsp. reflexivity.
    + intros Hk0. exists (time_ms e - time_ms leader).
      assert (Hle : time_ms leader <= time_ms e).
      { apply (StronglySorted_nth _ _ Hs 0%nat k leader e);
          [lia | reflexivity | exact He]. }
      split; [lia |]. split.
      * unfold gap_to_leader. rewrite py_getitem_head. reflexivity.
      * rewrite Hsp. destruct (1 + Z.of_nat k =? 1) eqn:E1;
          [apply Z.eqb_eq in E1; lia | reflexivity].
Qed.

Lemma map_view_rows_witness :
  show_map_leaderboard two_players 6 = ViewInvalidMap
  /\ show_map_leaderboard one_player 1 = ViewNoTimes (lit "ZOOP 01")
  /\ show_map_leaderboard two_players 1
     = ViewBoard (lit "ZOOP 01")
                 [ mk_field 1 (lit "Q") (lit "01:25.000") None;
                   mk_field 2 (lit "P") (lit "01:30.000") (Some (lit "00:05.000")) ].
Proof.
  split.
  - apply (proj1 (map_view_rows two_players 6)). lia.
  - split; [| reflexivity].
    destruct (proj2 (map_view_rows one_player 1)) as (name & lb & En & El & _ & H & _);
      [reflexivity | lia |].
    injection En as <-. apply H.
    assert (E : get_map_leaderboard one_player 1 = Ok []) by reflexivity.
    rewrite E in El. injection El as <-. reflexivity.
Defined.

(** ** What a submission does to the ranks *)

Lemma upsert_time_row_other_map (row : time_row) (tbl : list time_row) (map_num : Z) :
  t_map_number row <> map_num ->
  filter (fun t => t_map_number t =? map_num) (upsert_time_row row tbl)
  = filter (fun t => t_map_number t =? map_num) tbl.
Proof.
  intros Hne.
  assert (Hrow : (t_map_number row =? map_num) = false) by (apply Z.eqb_neq; exact Hne).
  induction tbl as [| r tbl IH]; simpl.
  - rewrite Hrow. reflexivity.
  - destruct (same_time_key r row) eqn:E.
    + apply same_time_key_spec in E. injection E as _ Em.
      simpl. rewrite Hrow, Em, Hrow. reflexivity.
    + simpl. rewrite IH. reflexivity.
Qed.

(** X21.  A submission for one map changes no other map: the leaderboard
    of every other map, and so every rank on it, is what it was. *)
Theorem submit_time_other_maps (st : store) (author map_num other : Z) (time_str : pystr) :
  other <> map_num ->
  get_map_leaderboard (fst (submit_time st author map_num time_str)) other
  = get_map_leaderboard st other
  /\ forall z,
       get_player_position (fst (submit_time st author map_num time_str)) other z
       = get_player_position st other z.
Proof.
  intros Hne.
  assert (H : get_map_leaderboard (fst (submit_time st author map_num time_str)) other
              = get_map_leaderboard st other).
  { destruct (submit_time_store st author map_num time_str)
      as [-> | (t & _ & _ & _ & _ & ->)]; [reflexivity |].
    unfold get_map_leaderboard, select_times_of_map. simpl.
    rewrite upsert_time_row_other_map by (simpl; congruence).
    reflexivity. }
  split; [exact H |].
  intros z. unfold get_player_position. rewrite H. reflexivity.
Qed.

Lemma submit_time_other_maps_witness :
  get_player_position (fst (submit_time two_players 2 2 (lit "1:00.000"))) 1 1
  = Ok 2
  /\ get_player_position two_players 1 1 = Ok 2.
Proof.
  split; [| reflexivity].
  rewrite (proj2 (submit_time_other_maps two_players 2 2 1 (lit "1:00.000")
                                         ltac:(lia))).
  reflexivity.
Defined.

(** X22.  In a well-formed store, a submission that passes the checks and
    is strictly faster than every other player's time on the map is
    answered with rank 1 and the first-place note. *)
Theorem best_time_first_place (st : store) (author map_num t : Z) (time_str : pystr) :
  store_wf st = true ->
  registered st author -> 1 <= map_num <= 5 ->
  parse_time time_str = Some t -> 1000 <= t <= 600000 ->
  (forall row, In row (times st) -> t_map_number row = map_num ->
               t_discord_id row <> py_str author -> t < t_time_ms row) ->
  exists name,
    snd (submit_time st author map_num time_str)
    = Submitted name map_num (format_time t) 1 FirstPlace.
Proof.
  intros Hwf Hreg Hm Hp Hr Hbest.
  apply store_wf_spec in Hwf. destruct Hwf as (_ & Hu & Hfk).
  destruct (submit_time_registered st author map_num time_str Hreg)
    as (player & Hpin & Hpid & ->).
  apply map_check_spec in Hm. apply range_check_spec in Hr.
  rewrite Hm, Hp, Hr. cbv zeta.
  set (row := mk_time (py_str author) map_num t).
  set (st' := upsert_time st row).
  assert (Hfk' : times_have_players st').
  { apply upsert_time_have_players; [exact Hfk |]. exists player. auto. }
  destruct (map_leaderboard_rows st' map_num Hfk') as (entries & E & F).
  pose proof (by_time_sorted entries) as Hs.
  pose proof (py_sorted_perm Z.ltb time_ms entries) as Hperm.
  assert (Hrow : In row (times_of_map st' map_num)).
  { apply filter_In. split; [apply upsert_time_row_has | apply Z.eqb_refl]. }
  destruct (Forall2_in_l _ _ _ _ F Hrow) as (ea & Hea & Hda & Hta).
  apply (Permutation_in _ Hperm) in Hea.
  assert (Hpos : position_from 1 (py_sorted Z.ltb time_ms entries) (py_str author) = 1).
  { destruct (py_sorted Z.ltb time_ms entries) as [| e0 rest] eqn:Elb;
      [destruct Hea |].
    simpl. destruct (str_eqb (discord_id e0) (py_str author)) eqn:E0; [reflexivity |].
    exfalso. apply str_eqb_neq in E0.
    assert (He0 : In e0 entries).
    { apply (Permutation_in _ (Permutation_sym Hperm)). left. reflexivity. }
    destruct (Forall2_in_r _ _ _ _ F He0) as (r0 & Hr0 & Hd0 & Ht0).
    apply filter_In in Hr0. destruct Hr0 as [Hr0 Hm0]. apply Z.eqb_eq in Hm0.
    simpl in Hr0. apply upsert_time_row_in in Hr0.
    destruct Hr0 as [-> | Hr0]; [apply E0; rewrite Hd0; reflexivity |].
    assert (Hlt : t < t_time_ms r0) by (apply Hbest; [exact Hr0 | exact Hm0 | congruence]).
    inversion Hs as [| ? ? _ Hle]; subst.
    destruct Hea as [-> | Hea]; [apply E0; rewrite Hda; reflexivity |].
    rewrite Forall_forall in Hle. specialize (Hle ea Hea).
    simpl in Hta. lia. }
  unfold get_player_position, position_in. fold row. fold st'.
  rewrite E. cbn [bind]. rewrite Hpos.
  exists (p_tm_username player). reflexivity.
Qed.

Lemma best_time_first_place_witness :
  exists name,
    snd (submit_time two_players 1 1 (lit "1:20.000"))
    = Submitted name 1 (format_time 80000) 1 FirstPlace.
Proof.
  apply (best_time_first_place two_players 1 1 80000 (lit "1:20.000"));
    try reflexivity; try lia.
  - exists (mk_player (py_str 1) (lit "P")). split; [left |]; reflexivity.
  - intros row Hin Hm Hid. simpl in Hin.
    repeat (destruct Hin as [<- | Hin];
            [try (simpl in Hm; discriminate);
             try (exfalso; apply Hid; reflexivity);
             try (simpl; lia) |]).
    destruct Hin.
Defined.
